(** * The agent execution engine: validator, tool dispatch and the run loop

    A shallow embedding of [src/types/agent.ts] and
    [src/engine/AgentExecutor.ts].

    - JavaScript numbers are IEEE-754 doubles: primitive floats.
    - A schema and a parameter bag are plain objects: [Object.entries] lists
      the properties of a schema in the order of the language (array indices
      first), and reading a property of a bag falls back on
      [Object.prototype].
    - Objects that the code shares by reference (Message objects, Message
      arrays, Tool arrays) live in a heap of typed cells; the executor holds
      references into it.
    - [run] is an async function: it is embedded as a coroutine that stops at
      each [await] on the outside world (the two oracle calls, the tool body)
      and is resumed with the settlement of the awaited promise. What the
      oracle and the tool bodies answer is an input: every result holds for
      all oracles, the placeholder [callLLM] of the source included. *)

From Stdlib Require Import PrimFloat FloatOps FloatAxioms SpecFloat ZArith
  DecimalString.
From stdpp Require Import gmap strings list fin_maps sorting.

Open Scope string_scope.
Open Scope list_scope.

(** ** Primitive values *)

(** What reading a property of a parameter bag can give: one of the values a
    bag holds ([string | number | boolean]), or one of the built-in objects
    every object inherits from [Object.prototype]: a function, or the
    prototype object itself. Built-in objects are told apart by name. *)
Inductive Value :=
| VString (s : string)
| VNumber (n : float)
| VBoolean (b : bool)
| VFunction (name : string)
| VObject (name : string).

(** The results [typeof] can give on such a value. *)
Inductive JSType := TString | TNumber | TBoolean | TFunction | TObject.

#[global] Instance JSType_eq_dec : EqDecision JSType.
Proof. solve_decision. Defined.

Definition typeof (v : Value) : JSType :=
  match v with
  | VString _ => TString
  | VNumber _ => TNumber
  | VBoolean _ => TBoolean
  | VFunction _ => TFunction
  | VObject _ => TObject
  end.

(** The text of the type tag (['string'], ['number'], ['boolean'], ...). *)
Definition type_name (t : JSType) : string :=
  match t with
  | TString => "string"
  | TNumber => "number"
  | TBoolean => "boolean"
  | TFunction => "function"
  | TObject => "object"
  end.

(** The members of [Object.prototype] (ECMA-262, 20.1.3 and B.2.2): all
    functions but [__proto__], an accessor that reads the prototype of the
    object, here [Object.prototype] itself. *)
Definition Object_prototype_functions : list string :=
  ["constructor"; "hasOwnProperty"; "isPrototypeOf"; "propertyIsEnumerable";
   "toLocaleString"; "toString"; "valueOf"; "__defineGetter__";
   "__defineSetter__"; "__lookupGetter__"; "__lookupSetter__"].

Definition Object_prototype (name : string) : option Value :=
  if existsb (String.eqb name) Object_prototype_functions
  then Some (VFunction name)
  else if String.eqb name "__proto__" then Some (VObject "Object.prototype")
  else None.

(** An array index: the canonical decimal text of an integer from 0 to
    2^32 - 2. *)
Definition array_index (key : string) : option N :=
  match NilEmpty.uint_of_string key with
  | Some d =>
      let i := N.of_uint d in
      if String.eqb (NilZero.string_of_uint (N.to_uint i)) key
         && (i <? 4294967295)%N
      then Some i else None
  | None => None
  end.

(** The properties of an object, in the order they were created: for an object
    literal, the order it lists them in ([__proto__: v] in a literal sets the
    prototype and creates no property). *)
Definition OwnProperties (A : Type) : Type := list (string * A).

Definition is_array_index (key : string) : bool :=
  if array_index key is Some _ then true else false.


(** [Object.entries(o)]: the properties whose names are array indices, in
    ascending order of index, then the others in the order of creation. *)
Fixpoint insert_indexed {A} (i : N) (e : string * A)
    (sorted : list (N * (string * A))) : list (N * (string * A)) :=
  match sorted with
  | [] => [(i, e)]
  | (j, e') :: rest =>
      if (i <=? j)%N then (i, e) :: (j, e') :: rest
      else (j, e') :: insert_indexed i e rest
  end.

Fixpoint indexed {A} (o : OwnProperties A) : list (N * (string * A)) :=
  match o with
  | [] => []
  | e :: rest =>
      match array_index e.1 with
      | Some i => insert_indexed i e (indexed rest)
      | None => indexed rest
      end
  end.

Fixpoint named {A} (o : OwnProperties A) : list (string * A) :=
  match o with
  | [] => []
  | e :: rest =>
      match array_index e.1 with
      | Some _ => named rest
      | None => e :: named rest
      end
  end.

Definition Object_entries {A} (o : OwnProperties A) : list (string * A) :=
  (indexed o).*2 ++ named o.

(** [`${n}`] for a number [n] is the runtime's Number::toString, which is not
    code of the repository: the development is parametric in it. *)
Class NumberToString := number_toString : float → string.

(** An instance for concrete examples. It agrees with Number::toString on
    NaN, the infinities, zero and the integers below 2^53; other numbers print
    as [?]. *)
Definition integral_toString : NumberToString := λ n,
  match Prim2SF n with
  | S754_nan => "NaN"
  | S754_infinity s => if s then "-Infinity" else "Infinity"
  | S754_zero _ => "0"
  | S754_finite s m e =>
      let z := (Z.pos m * 2 ^ (e + 1074))%Z in
      let d := (2 ^ 1074)%Z in
      if (z mod d =? 0)%Z && (z / d <? 2 ^ 53)%Z
      then (if s then "-" else "")
           +:+ NilZero.string_of_uint (N.to_uint (Z.to_N (z / d)))
      else "?"
  end.

(** A double quote, as a one-character string. *)
Definition dquote : string := String (Ascii.ascii_of_nat 34) EmptyString.

(** ** Tool schemas ([src/types/agent.ts]) *)

(** [ToolParameter = StringParam | NumberParam | BooleanParam], discriminated
    by its [type] field. Optional fields are options. *)
Inductive ToolParameter :=
| StringParam (description : string) (required : option bool)
    (default : option string)
| NumberParam (description : string) (required : option bool)
    (default : option float) (min max : option float)
| BooleanParam (description : string) (required : option bool)
    (default : option bool).

Module Param.
Definition type (p : ToolParameter) : JSType :=
  match p with
  | StringParam _ _ _ => TString
  | NumberParam _ _ _ _ _ => TNumber
  | BooleanParam _ _ _ => TBoolean
  end.

Definition required (p : ToolParameter) : option bool :=
  match p with
  | StringParam _ r _ | NumberParam _ r _ _ _ | BooleanParam _ r _ => r
  end.

(** [paramSchema.min], [paramSchema.max]: only a NumberParam has them. *)
Definition min (p : ToolParameter) : option float :=
  match p with NumberParam _ _ _ m _ => m | _ => None end.

Definition max (p : ToolParameter) : option float :=
  match p with NumberParam _ _ _ _ m => m | _ => None end.
End Param.

(** [isRequiredParam]: [param.required === true]. *)
Definition isRequiredParam (param : ToolParameter) : bool :=
  match Param.required param with Some true => true | _ => false end.

Definition isStringParam (param : ToolParameter) : bool :=
  bool_decide (Param.type param = TString).
Definition isNumberParam (param : ToolParameter) : bool :=
  bool_decide (Param.type param = TNumber).
Definition isBooleanParam (param : ToolParameter) : bool :=
  bool_decide (Param.type param = TBoolean).

(** [ParameterSchema = Record<string, ToolParameter>]: the declared
    parameters, in the order the schema declares them. *)
Definition ParameterSchema := OwnProperties ToolParameter.

(** A parameter bag, [Record<string, string | number | boolean>]: the
    properties of its own. A bag is a plain object (the oracle writes it as
    an object literal): its prototype is [Object.prototype]. *)
Abbreviation Parameters := (gmap string Value).

(** [parameters[paramName]]: the bag's own property of that name, else the
    member of [Object.prototype] of that name, else [undefined]. *)
Definition read_property (parameters : Parameters) (paramName : string)
    : option Value :=
  match parameters !! paramName with
  | Some v => Some v
  | None => Object_prototype paramName
  end.

Module Tool.
(** [execute] is not a field here: a tool body may suspend, read the clock
    or draw random numbers, so its outcome is supplied by the environment
    when the executor awaits it (see [Step]). *)
Record t := mk {
  name : string;
  description : string;
  parameters : ParameterSchema
}.
End Tool.

Module ToolCall.
Record t := mk {
  toolName : string;
  parameters : Parameters
}.
End ToolCall.

Module ToolResult.
Record t := mk {
  toolName : string;
  success : bool;
  result : option string;
  error : option string
}.
End ToolResult.

(** ** The validator ([validateParameters]) *)

(** The validator's return type, [{ valid: boolean; error?: string }]. *)
Record Validation := { valid : bool; error : option string }.

Definition invalid (reason : string) : Validation :=
  {| valid := false; error := Some reason |}.

(** JavaScript truthiness of an optional boolean. *)
Definition truthy_bool (b : option bool) : bool :=
  match b with Some true => true | _ => false end.

Section Validator.
Context `{NumberToString}.

(** One pass through the body of the [for] loop: [Some r] when the body
    executes [return r], [None] when it falls through to the next entry. *)
Definition checkParameter (paramName : string) (paramSchema : ToolParameter)
    (value : option Value) : option Validation :=
  if truthy_bool (Param.required paramSchema)
     && (if value is None then true else false)
  then Some (invalid ("Missing required parameter: " +:+ paramName))
  else
    match value with
    | None => None
    | Some v =>
        let expectedType := Param.type paramSchema in
        let actualType := typeof v in
        if bool_decide (expectedType = TNumber)
           && negb (bool_decide (actualType = TNumber))
        then Some (invalid ("Parameter " +:+ paramName +:+ " must be a number"))
        else if bool_decide (expectedType = TString)
                && negb (bool_decide (actualType = TString))
        then Some (invalid ("Parameter " +:+ paramName +:+ " must be a string"))
        else if bool_decide (expectedType = TBoolean)
                && negb (bool_decide (actualType = TBoolean))
        then Some (invalid ("Parameter " +:+ paramName +:+ " must be a boolean"))
        else
          match expectedType, v with
          | TNumber, VNumber n =>
              let checkMax :=
                match Param.max paramSchema with
                | Some mx =>
                    if PrimFloat.ltb mx n
                    then Some (invalid ("Parameter " +:+ paramName
                                        +:+ " must be <= " +:+ number_toString mx))
                    else None
                | None => None
                end in
              match Param.min paramSchema with
              | Some mn =>
                  if PrimFloat.ltb n mn
                  then Some (invalid ("Parameter " +:+ paramName
                                      +:+ " must be >= " +:+ number_toString mn))
                  else checkMax
              | None => checkMax
              end
          | _, _ => None
          end
    end.

(** The loop over [entries], the result of [Object.entries(tool.parameters)]. *)
Fixpoint validateEntries (entries : list (string * ToolParameter))
    (parameters : Parameters)
    : Validation :=
  match entries with
  | [] => {| valid := true; error := None |}
  | (paramName, paramSchema) :: rest =>
      match checkParameter paramName paramSchema
              (read_property parameters paramName) with
      | Some r => r
      | None => validateEntries rest parameters
      end
  end.

Definition validateParameters (tool : Tool.t) (parameters : Parameters)
    : Validation :=
  validateEntries (Object_entries (Tool.parameters tool)) parameters.

(** The rules of the specification, one constructor per rule:
    [Violates n s v reason] says that the declared parameter [n] with
    schema [s] breaks a rule when reading it from the bag gives [v]. *)
Inductive Violates (n : string) (s : ToolParameter)
    : option Value → string → Prop :=
| missing_required :
    Param.required s = Some true →
    Violates n s None ("Missing required parameter: " +:+ n)
| type_mismatch v :
    typeof v ≠ Param.type s →
    Violates n s (Some v)
      ("Parameter " +:+ n +:+ " must be a " +:+ type_name (Param.type s))
| below_min x mn :
    Param.type s = TNumber → Param.min s = Some mn →
    PrimFloat.ltb x mn = true →
    Violates n s (Some (VNumber x))
      ("Parameter " +:+ n +:+ " must be >= " +:+ number_toString mn)
| above_max x mx :
    Param.type s = TNumber → Param.max s = Some mx →
    PrimFloat.ltb mx x = true →
    Violates n s (Some (VNumber x))
      ("Parameter " +:+ n +:+ " must be <= " +:+ number_toString mx).

Definition complies (parameters : Parameters) (entry : string * ToolParameter)
    : Prop :=
  ∀ reason, ¬ Violates entry.1 entry.2 (read_property parameters entry.1) reason.
End Validator.


(** ** Messages, agents and the heap *)

Module Role.
Inductive t := user | assistant | system | tool.
End Role.

(** A [Date], as its time value in milliseconds. *)
Definition Date := Z.

(** References to heap cells. *)
Definition loc := nat.

Module Message.
Record t := mk {
  role : Role.t;
  content : string;
  timestamp : Date;
  toolName : option string;
  toolResult : option string
}.
End Message.

Module Agent.
(** [tools] is a reference: the array is shared with whoever built the
    agent. *)
Record t := mk {
  id : string;
  name : string;
  prompt : string;
  tools : loc;
  createdAt : Date;
  updatedAt : Date
}.
End Agent.

(** The heap: Message objects, Message arrays (holding references to Message
    objects) and Tool arrays. *)
Record Heap := {
  messageObjects : gmap loc Message.t;
  messageArrays : gmap loc (list loc);
  toolArrays : gmap loc (list Tool.t)
}.

(** The private fields of one [AgentExecutor] instance. *)
Record AgentExecutor := {
  agent : Agent.t;
  messages : loc;
  isRunning : bool
}.

Record World := { heap : Heap; this : AgentExecutor }.

(** What a [throw] or a rejected promise carries: an [Error] instance with
    its message, or any other value. *)
Inductive Thrown :=
| ErrorObject (message : string)
| NonError (v : Value).

(** How a promise settles. *)
Inductive Settlement (A : Type) :=
| Fulfilled (value : A)
| Rejected (reason : Thrown).
Arguments Fulfilled {A} value.
Arguments Rejected {A} reason.

(** What [callLLM] resolves to, [{ text?: string; toolCall?: ToolCall }]. *)
Record LLMResponse := {
  text : option string;
  toolCall : option ToolCall.t
}.

(** The arguments of one [callLLM(prompt, messages, availableTools)] call; the
    two arrays are passed by reference. *)
Record CallLLM := {
  llm_prompt : string;
  llm_messages : loc;
  llm_availableTools : loc
}.

(** Where an invocation of [run] stands: settled, or suspended at one of its
    awaits on the outside world. *)
Inductive Step :=
| Settled (s : Settlement loc)
| AwaitDecide (call : CallLLM)
| AwaitExecute (toolCall : ToolCall.t) (tool : Tool.t)
| AwaitSummarize (call : CallLLM).

Definition pending (st : Step) : bool :=
  match st with Settled _ => false | _ => true end.

Definition invokes_tool (st : Step) : bool :=
  match st with AwaitExecute _ _ => true | _ => false end.

(** ** A state monad over the world *)

Definition M (A : Type) : Type := World → A * World.

#[global] Instance M_ret : MRet M := λ A a w, (a, w).
#[global] Instance M_bind : MBind M :=
  λ A B k m w, let r := m w in k r.1 r.2.

Definition get_this : M AgentExecutor := λ w, (this w, w).

Definition set_isRunning (b : bool) : M unit := λ w,
  (tt, {| heap := heap w;
          this := {| agent := agent (this w); messages := messages (this w);
                     isRunning := b |} |}).

Definition set_messages (a : loc) : M unit := λ w,
  (tt, {| heap := heap w;
          this := {| agent := agent (this w); messages := a;
                     isRunning := isRunning (this w) |} |}).

(** An object literal [{ role, content, ... }]: a new Message object. *)
Definition new_message (m : Message.t) : M loc := λ w,
  let l := fresh (dom (messageObjects (heap w))) in
  (l, {| heap := {| messageObjects := <[l := m]> (messageObjects (heap w));
                    messageArrays := messageArrays (heap w);
                    toolArrays := toolArrays (heap w) |};
         this := this w |}).

(** An array literal or a spread [[...xs]]: a new Message array. *)
Definition new_array (xs : list loc) : M loc := λ w,
  let a := fresh (dom (messageArrays (heap w))) in
  (a, {| heap := {| messageObjects := messageObjects (heap w);
                    messageArrays := <[a := xs]> (messageArrays (heap w));
                    toolArrays := toolArrays (heap w) |};
         this := this w |}).

(** [a.push(l)]. *)
Definition push (a l : loc) : M unit := λ w,
  (tt, {| heap := {| messageObjects := messageObjects (heap w);
                     messageArrays := alter (λ xs, xs ++ [l]) a (messageArrays (heap w));
                     toolArrays := toolArrays (heap w) |};
          this := this w |}).

(** The elements of a Message array and of a Tool array, as they are now. *)
Definition read_array (a : loc) : M (list loc) := λ w,
  (default [] (messageArrays (heap w) !! a), w).

Definition read_tools (a : loc) : M (list Tool.t) := λ w,
  (default [] (toolArrays (heap w) !! a), w).

(** The transcript: the Message objects the array holds, in order. *)
Definition read_messages (h : Heap) (a : loc) : option (list Message.t) :=
  xs ← messageArrays h !! a; mapM (λ l, messageObjects h !! l) xs.

Definition transcript (w : World) : option (list Message.t) :=
  read_messages (heap w) (messages (this w)).

(** The agent's tools, as the executor sees them now. *)
Definition agent_tools (w : World) : list Tool.t :=
  default [] (toolArrays (heap w) !! Agent.tools (agent (this w))).

(** ** The executor ([AgentExecutor]) *)

(** [const msg: Message = {...}; this.messages.push(msg)]. *)
Definition push_message (m : Message.t) : M unit :=
  l ← new_message m;
  ex ← get_this;
  push (messages ex) l.

Definition systemMsg (prompt : string) (now : Date) : Message.t :=
  {| Message.role := Role.system;
     Message.content := prompt;
     Message.timestamp := now;
     Message.toolName := None;
     Message.toolResult := None |}.

(** [initializeMessages]: a new array holding one new system Message. *)
Definition initializeMessages (now : Date) : M unit :=
  ex ← get_this;
  l ← new_message (systemMsg (Agent.prompt (agent ex)) now);
  a ← new_array [l];
  set_messages a.

(** [new AgentExecutor(agent)]: the field initialisers ([messages = []],
    [isRunning = false]), then the constructor body. *)
Definition new_AgentExecutor (agent : Agent.t) (now : Date) (h : Heap) : World :=
  let w0 := {| heap := h;
               this := {| agent := agent; messages := 0; isRunning := false |} |} in
  ((a ← new_array []; set_messages a;; initializeMessages now) w0).2.

(** [`${x}`] for an optional string. *)
Definition interpolate (x : option string) : string := default "undefined" x.

Section Executor.
Context `{NumberToString}.

(** The body of [executeTool] up to its [await tool.execute(...)], on the
    current elements [tools] of [this.agent.tools]: [inl r] when it returns
    [r] before reaching the await, [inr tool] when it is suspended there,
    the body of [tool] having been invoked. *)
Definition dispatch (tools : list Tool.t) (toolCall : ToolCall.t)
    : ToolResult.t + Tool.t :=
  match find (λ t, String.eqb (Tool.name t) (ToolCall.toolName toolCall)) tools with
  | None =>
      inl {| ToolResult.toolName := ToolCall.toolName toolCall;
             ToolResult.success := false;
             ToolResult.result := None;
             ToolResult.error :=
               Some ("Tool " +:+ dquote +:+ ToolCall.toolName toolCall
                     +:+ dquote +:+ " not found") |}
  | Some tool =>
      let validation := validateParameters tool (ToolCall.parameters toolCall) in
      if negb (valid validation)
      then inl {| ToolResult.toolName := ToolCall.toolName toolCall;
                  ToolResult.success := false;
                  ToolResult.result := None;
                  ToolResult.error := error validation |}
      else inr tool
  end.

Definition executeTool (toolCall : ToolCall.t) : M (ToolResult.t + Tool.t) :=
  ex ← get_this;
  tools ← read_tools (Agent.tools (agent ex));
  mret (dispatch tools toolCall).

(** The rest of [executeTool], once the tool body has settled: the [return]
    in the [try] block or the one in the [catch] block. *)
Definition executeTool_settle (toolCall : ToolCall.t)
    (outcome : Settlement string) : ToolResult.t :=
  match outcome with
  | Fulfilled result =>
      {| ToolResult.toolName := ToolCall.toolName toolCall;
         ToolResult.success := true;
         ToolResult.result := Some result;
         ToolResult.error := None |}
  | Rejected e =>
      {| ToolResult.toolName := ToolCall.toolName toolCall;
         ToolResult.success := false;
         ToolResult.result := None;
         ToolResult.error :=
           Some (match e with
                 | ErrorObject message => message
                 | NonError _ => "Unknown error"
                 end) |}
  end.

Definition callLLM_args : M CallLLM :=
  ex ← get_this;
  mret {| llm_prompt := Agent.prompt (agent ex);
          llm_messages := messages ex;
          llm_availableTools := Agent.tools (agent ex) |}.

Definition assistantMsg (content : string) (now : Date) : Message.t :=
  {| Message.role := Role.assistant;
     Message.content := content;
     Message.timestamp := now;
     Message.toolName := None;
     Message.toolResult := None |}.

Definition userMsg (userMessage : string) (now : Date) : Message.t :=
  {| Message.role := Role.user;
     Message.content := userMessage;
     Message.timestamp := now;
     Message.toolName := None;
     Message.toolResult := None |}.

(** [result!] is set whenever [success] is. *)
Definition toolMsg (toolResult : ToolResult.t) (now : Date) : Message.t :=
  {| Message.role := Role.tool;
     Message.content :=
       if ToolResult.success toolResult
       then default "" (ToolResult.result toolResult)
       else "Error: " +:+ interpolate (ToolResult.error toolResult);
     Message.timestamp := now;
     Message.toolName := Some (ToolResult.toolName toolResult);
     Message.toolResult :=
       if ToolResult.success toolResult
       then ToolResult.result toolResult else None |}.

(** Leaving the [try] block: the [finally] block runs, then the promise of
    [run] settles. *)
Definition return_messages : M Step :=
  ex ← get_this;
  set_isRunning false;;
  mret (Settled (Fulfilled (messages ex))).

Definition throw (e : Thrown) : M Step :=
  set_isRunning false;;
  mret (Settled (Rejected e)).

(** [if (response.text) { push the assistant message }]: [undefined] and
    the empty string are falsy. *)
Definition push_text (response : LLMResponse) (now : Date) : M unit :=
  match text response with
  | Some (String c s) => push_message (assistantMsg (String c s) now)
  | Some EmptyString | None => mret tt
  end.

(** [run], from its call to its first await. The guard is outside the
    [try]: a rejected call does not touch the flag. *)
Definition run (userMessage : string) (now : Date) : M Step :=
  ex ← get_this;
  if isRunning ex
  then mret (Settled (Rejected (ErrorObject "Agent is already running")))
  else
    set_isRunning true;;
    push_message (userMsg userMessage now);;
    call ← callLLM_args;
    mret (AwaitDecide call).

(** From the tool result to the second await. *)
Definition after_tool (toolResult : ToolResult.t) (now : Date) : M Step :=
  push_message (toolMsg toolResult now);;
  call ← callLLM_args;
  mret (AwaitSummarize call).

(** [run] resumed at its first await. When [executeTool] returns without
    reaching the tool body, the promise [run] awaits is already settled and
    the run goes on without anything from the outside world. *)
Definition resume_decide (reply : Settlement LLMResponse) (now : Date) : M Step :=
  match reply with
  | Rejected e => throw e
  | Fulfilled llmResponse =>
      match toolCall llmResponse with
      | Some tc =>
          r ← executeTool tc;
          match r with
          | inl toolResult => after_tool toolResult now
          | inr tool => mret (AwaitExecute tc tool)
          end
      | None => push_text llmResponse now;; return_messages
      end
  end.

(** [run] resumed when the tool body has settled. *)
Definition resume_execute (tc : ToolCall.t) (outcome : Settlement string)
    (now : Date) : M Step :=
  after_tool (executeTool_settle tc outcome) now.

(** [run] resumed at its second await. *)
Definition resume_summarize (reply : Settlement LLMResponse) (now : Date)
    : M Step :=
  match reply with
  | Rejected e => throw e
  | Fulfilled finalResponse => push_text finalResponse now;; return_messages
  end.

(** [getMessages]: [[...this.messages]], a new array with the same
    elements. *)
Definition getMessages : M loc :=
  ex ← get_this;
  xs ← read_array (messages ex);
  new_array xs.

Definition reset (now : Date) : M unit := initializeMessages now.

(** [getTools]: the agent's own array. *)
Definition getTools : M loc :=
  ex ← get_this;
  mret (Agent.tools (agent ex)).

(** *** One whole turn *)

(** What the outside world answers during one turn, and what the clock
    shows when [run] starts (0) and each time it is resumed (1, 2, 3). *)
Record Turn := {
  decideReply : Settlement LLMResponse;
  toolOutcome : Settlement string;
  summarizeReply : Settlement LLMResponse;
  clock : nat → Date
}.

Definition advance (turn : Turn) (st : Step) : M Step :=
  match st with
  | Settled s => mret (Settled s)
  | AwaitDecide _ => resume_decide (decideReply turn) (clock turn 1)
  | AwaitExecute tc _ => resume_execute tc (toolOutcome turn) (clock turn 2)
  | AwaitSummarize _ => resume_summarize (summarizeReply turn) (clock turn 3)
  end.

(** Resume [st] until it settles; the result lists the steps gone through,
    [st] first. *)
Fixpoint drive (fuel : nat) (turn : Turn) (st : Step) : M (list Step) :=
  match st, fuel with
  | Settled _, _ | _, 0 => mret [st]
  | _, S fuel' =>
      st' ← advance turn st;
      rest ← drive fuel' turn st';
      mret (st :: rest)
  end.

(** A call of [run] with nothing else interleaved. Three resumptions are
    the most a turn needs. *)
Definition run_turn (turn : Turn) (userMessage : string) : M (list Step) :=
  st ← run userMessage (clock turn 0);
  drive 3 turn st.

(** Completed turns, one after the other. *)
Fixpoint run_turns (turns : list (Turn * string)) (w : World) : World :=
  match turns with
  | [] => w
  | (turn, userMessage) :: rest =>
      run_turns rest (run_turn turn userMessage w).2
  end.

(** *** What a caller can do between two steps of a run *)

(** An in-place change of an object the caller holds a reference to: any
    sequence of [push], [pop], [splice], [a[i] = x] on an array leaves it
    with some list of elements, any assignments to fields of a Message leave
    it with some field values. *)
Inductive Mutation :=
| WriteMessageArray (a : loc) (xs : list loc)
| WriteMessage (m : loc) (v : Message.t)
| WriteToolArray (a : loc) (ts : list Tool.t).

Definition mutate (μ : Mutation) : M unit := λ w,
  let h := heap w in
  (tt, {| heap :=
            match μ with
            | WriteMessageArray a xs =>
                {| messageObjects := messageObjects h;
                   messageArrays := alter (λ _, xs) a (messageArrays h);
                   toolArrays := toolArrays h |}
            | WriteMessage m v =>
                {| messageObjects := alter (λ _, v) m (messageObjects h);
                   messageArrays := messageArrays h;
                   toolArrays := toolArrays h |}
            | WriteToolArray a ts =>
                {| messageObjects := messageObjects h;
                   messageArrays := messageArrays h;
                   toolArrays := alter (λ _, ts) a (toolArrays h) |}
            end;
          this := this w |}).

Inductive Call :=
| CallRun (userMessage : string) (now : Date)
| CallGetMessages
| CallReset (now : Date)
| CallGetTools
| CallMutate (μ : Mutation).

(** The world after a call. *)
Definition invoke (c : Call) (w : World) : World :=
  match c with
  | CallRun userMessage now => (run userMessage now w).2
  | CallGetMessages => (getMessages w).2
  | CallReset now => (reset now w).2
  | CallGetTools => (getTools w).2
  | CallMutate μ => (mutate μ w).2
  end.

(** [in_flight st w]: some invocation of [run] that started on an idle
    executor now stands at [st], in world [w]; other calls may have been
    made while it was suspended. *)
Inductive in_flight : Step → World → Prop :=
| in_flight_run w userMessage now :
    isRunning (this w) = false →
    in_flight (run userMessage now w).1 (run userMessage now w).2
| in_flight_decide call w reply now :
    in_flight (AwaitDecide call) w →
    in_flight (resume_decide reply now w).1 (resume_decide reply now w).2
| in_flight_execute tc tool w outcome now :
    in_flight (AwaitExecute tc tool) w →
    in_flight (resume_execute tc outcome now w).1
              (resume_execute tc outcome now w).2
| in_flight_summarize call w reply now :
    in_flight (AwaitSummarize call) w →
    in_flight (resume_summarize reply now w).1
              (resume_summarize reply now w).2
| in_flight_call st w c :
    in_flight st w → pending st = true →
    in_flight st (invoke c w).
End Executor.

(** ** What one turn does, read off the replies

    These functions say, without running the executor, which messages a turn
    appends and which steps it goes through; [run_turn_spec] proves that the
    executor does just that. *)

Section TurnSummary.
Context `{NumberToString}.

Definition text_messages (response : LLMResponse) (now : Date)
    : list Message.t :=
  match text response with
  | Some (String c s) => [assistantMsg (String c s) now]
  | Some EmptyString | None => []
  end.

Definition reply_messages (reply : Settlement LLMResponse) (now : Date)
    : list Message.t :=
  match reply with
  | Fulfilled response => text_messages response now
  | Rejected _ => []
  end.

Definition turn_messages (tools : list Tool.t) (turn : Turn)
    (userMessage : string) : list Message.t :=
  userMsg userMessage (clock turn 0) ::
  match decideReply turn with
  | Rejected _ => []
  | Fulfilled response =>
      match toolCall response with
      | None => text_messages response (clock turn 1)
      | Some tc =>
          match dispatch tools tc with
          | inl toolResult => [toolMsg toolResult (clock turn 1)]
          | inr _ =>
              [toolMsg (executeTool_settle tc (toolOutcome turn)) (clock turn 2)]
          end ++ reply_messages (summarizeReply turn) (clock turn 3)
      end
  end.

(** The messages a run suspended at [st] has yet to append. *)
Definition remaining_messages (tools : list Tool.t) (turn : Turn) (st : Step)
    : list Message.t :=
  match st with
  | Settled _ => []
  | AwaitDecide _ =>
      match decideReply turn with
      | Rejected _ => []
      | Fulfilled response =>
          match toolCall response with
          | None => text_messages response (clock turn 1)
          | Some tc =>
              match dispatch tools tc with
              | inl toolResult => [toolMsg toolResult (clock turn 1)]
              | inr _ =>
                  [toolMsg (executeTool_settle tc (toolOutcome turn))
                     (clock turn 2)]
              end ++ reply_messages (summarizeReply turn) (clock turn 3)
          end
      end
  | AwaitExecute tc _ =>
      toolMsg (executeTool_settle tc (toolOutcome turn)) (clock turn 2)
      :: reply_messages (summarizeReply turn) (clock turn 3)
  | AwaitSummarize _ => reply_messages (summarizeReply turn) (clock turn 3)
  end.

Definition settlement_of (ex : AgentExecutor) (reply : Settlement LLMResponse)
    : Settlement loc :=
  match reply with
  | Fulfilled _ => Fulfilled (messages ex)
  | Rejected e => Rejected e
  end.

Definition call_of (ex : AgentExecutor) : CallLLM :=
  {| llm_prompt := Agent.prompt (agent ex);
     llm_messages := messages ex;
     llm_availableTools := Agent.tools (agent ex) |}.

Definition turn_steps (ex : AgentExecutor) (tools : list Tool.t) (turn : Turn)
    : list Step :=
  AwaitDecide (call_of ex) ::
  match decideReply turn with
  | Rejected e => [Settled (Rejected e)]
  | Fulfilled response =>
      match toolCall response with
      | None => [Settled (Fulfilled (messages ex))]
      | Some tc =>
          match dispatch tools tc with
          | inl _ => []
          | inr tool => [AwaitExecute tc tool]
          end ++ [AwaitSummarize (call_of ex);
                  Settled (settlement_of ex (summarizeReply turn))]
      end
  end.

(** [w'] is [w] with [new] appended to the transcript and the flag at [b];
    the agent, the transcript's array and the tool arrays are the same. *)
Definition appends (w : World) (new : list Message.t) (b : bool) (w' : World)
    : Prop :=
  (∀ old, transcript w = Some old → transcript w' = Some (old ++ new))
  ∧ agent (this w') = agent (this w)
  ∧ messages (this w') = messages (this w)
  ∧ toolArrays (heap w') = toolArrays (heap w)
  ∧ isRunning (this w') = b.
End TurnSummary.

(** ** The example agent ([src/tools/exampleTools.ts]) *)

Module exampleTools.
Definition calculatorParams : ParameterSchema :=
  [("operation",
    StringParam "The operation to perform: add, subtract, multiply, divide"
      (Some true) None);
   ("a", NumberParam "First number" (Some true) None None None);
   ("b", NumberParam "Second number" (Some true) None None None)].

Definition calculatorTool : Tool.t :=
  {| Tool.name := "calculator";
     Tool.description := "Performs basic arithmetic operations on two numbers";
     Tool.parameters := calculatorParams |}.

Definition randomNumberParams : ParameterSchema :=
  [("min", NumberParam "Minimum value (inclusive)" (Some false)
             (Some 0%float) (Some 0%float) None);
   ("max", NumberParam "Maximum value (inclusive)" (Some false)
             (Some 100%float) None (Some 1000%float))].

Definition randomNumberTool : Tool.t :=
  {| Tool.name := "randomNumber";
     Tool.description := "Generates a random number within a specified range";
     Tool.parameters := randomNumberParams |}.

Definition stringReverserParams : ParameterSchema :=
  [("text", StringParam "The text to reverse" (Some true) None);
   ("uppercase",
    BooleanParam "Convert to uppercase after reversing" (Some false)
      (Some false))].

Definition stringReverserTool : Tool.t :=
  {| Tool.name := "reverseString";
     Tool.description := "Reverses a string and optionally converts to uppercase";
     Tool.parameters := stringReverserParams |}.

Definition currentTimeTool : Tool.t :=
  {| Tool.name := "currentTime";
     Tool.description := "Returns the current time and date";
     Tool.parameters := [] |}.

Definition wordCounterParams : ParameterSchema :=
  [("text", StringParam "The text to analyze" (Some true) None)].

Definition wordCounterTool : Tool.t :=
  {| Tool.name := "wordCounter";
     Tool.description := "Counts words, characters, and sentences in text";
     Tool.parameters := wordCounterParams |}.

Definition tempConverterParams : ParameterSchema :=
  [("value", NumberParam "Temperature value" (Some true) None None None);
   ("from",
    StringParam "Source unit: celsius, fahrenheit, kelvin" (Some true) None);
   ("to",
    StringParam "Target unit: celsius, fahrenheit, kelvin" (Some true) None)].

Definition temperatureConverterTool : Tool.t :=
  {| Tool.name := "convertTemperature";
     Tool.description :=
       "Converts temperature between Celsius, Fahrenheit, and Kelvin";
     Tool.parameters := tempConverterParams |}.

Definition greetingParams : ParameterSchema :=
  [("name", StringParam "The name of the person to greet" (Some true) None)].

Definition greetingTool : Tool.t :=
  {| Tool.name := "greet";
     Tool.description := "Greets a person by name with a friendly message";
     Tool.parameters := greetingParams |}.

(** [createExampleAgent()]: the array literal is a new Tool array. *)
Definition createExampleAgent (now : Date) (h : Heap) : Agent.t * Heap :=
  let a := fresh (dom (toolArrays h)) in
  ({| Agent.id := "example-agent-1";
      Agent.name := "Demo Assistant";
      Agent.prompt :=
        "You are a helpful AI assistant with access to various utility tools.
Your goal is to help users with calculations, text processing, and conversions.
Always be friendly and explain what you're doing when you use a tool.";
      Agent.tools := a;
      Agent.createdAt := now;
      Agent.updatedAt := now |},
   {| messageObjects := messageObjects h;
      messageArrays := messageArrays h;
      toolArrays :=
        <[a := [calculatorTool; randomNumberTool; stringReverserTool;
                currentTimeTool; wordCounterTool; temperatureConverterTool;
                greetingTool]]> (toolArrays h) |}).
End exampleTools.

(** A world to run examples in: the example agent, built at time 0 on an
    empty heap, and an executor made for it at time 100. Numbers print with
    [integral_toString]. *)
Definition example_world : World :=
  let r := exampleTools.createExampleAgent 0%Z
             {| messageObjects := ∅; messageArrays := ∅; toolArrays := ∅ |} in
  new_AgentExecutor r.1 100%Z r.2.

Definition example_agent : Agent.t :=
  (exampleTools.createExampleAgent 0%Z
     {| messageObjects := ∅; messageArrays := ∅; toolArrays := ∅ |}).1.

(** The transcript of [example_world]. *)
Definition example_transcript : list Message.t :=
  [systemMsg (Agent.prompt example_agent) 100%Z].

Definition example_clock (n : nat) : Date := (200 + Z.of_nat n)%Z.

Definition greet_call : ToolCall.t :=
  {| ToolCall.toolName := "greet";
     ToolCall.parameters := {[ "name" := VString "Ada" ]} |}.

Definition calculator_call (operation : string) (a b : Value) : ToolCall.t :=
  {| ToolCall.toolName := "calculator";
     ToolCall.parameters :=
       {[ "operation" := VString operation; "a" := a; "b" := b ]} |}.

Definition unknown_call : ToolCall.t :=
  {| ToolCall.toolName := "doesNotExist"; ToolCall.parameters := ∅ |}.

(** A turn in which the oracle answers with a text (or with nothing). *)
Definition text_turn (txt : option string) : Turn :=
  {| decideReply := Fulfilled {| text := txt; toolCall := None |};
     toolOutcome := Fulfilled "";
     summarizeReply := Fulfilled {| text := None; toolCall := None |};
     clock := example_clock |}.

(** A turn in which the oracle asks for a tool, the tool body settles with
    [outcome] and the oracle then answers [summary]. *)
Definition tool_turn (tc : ToolCall.t) (outcome : Settlement string)
    (summary : LLMResponse) : Turn :=
  {| decideReply := Fulfilled {| text := None; toolCall := Some tc |};
     toolOutcome := outcome;
     summarizeReply := Fulfilled summary;
     clock := example_clock |}.

(** ** The placeholder oracle ([callLLM]) *)

(** The string methods of the runtime that the code calls; like
    Number::toString they are not code of the repository. *)
Class StringRuntime := {
  toLowerCase : string → string;
  toUpperCase : string → string;
  includes : string → string → bool;
  charAt : string → nat → string
}.

(** [array.length], as a number. *)
Definition Number_of_nat (n : nat) : float :=
  PrimFloat.of_uint63 (Uint63Axioms.of_Z (Z.of_nat n)).

Section Oracle.
Context `{NumberToString} `{StringRuntime}.

(** The text [callLLM] falls back to. *)
Definition defaultText (prompt : string) (availableTools : list Tool.t) : string :=
  "I'm an AI agent with the following goal: " +:+ dquote +:+ prompt +:+ dquote
  +:+ ". I have access to "
  +:+ number_toString (Number_of_nat (length availableTools))
  +:+ " tools. How can I help you?".

(** [callLLM] after its delay, on the elements the two arrays hold then. The
    [for] loop that returns at the first tool whose name the content includes
    is a [find]. *)
Definition callLLM_reply (prompt : string) (messages : list Message.t)
    (availableTools : list Tool.t) : LLMResponse :=
  let fallback :=
    {| text := Some (defaultText prompt availableTools); toolCall := None |} in
  if (0 <? length availableTools)%nat && (0 <? length messages)%nat
  then
    match last messages with
    | Some lastMessage =>
        match Message.role lastMessage with
        | Role.user =>
            let content := toLowerCase (Message.content lastMessage) in
            match find (λ tool, includes content (toLowerCase (Tool.name tool)))
                    availableTools with
            | Some tool =>
                {| text := None;
                   toolCall := Some {| ToolCall.toolName := Tool.name tool;
                                       ToolCall.parameters := ∅ |} |}
            | None => fallback
            end
        | _ => fallback
        end
    | None => fallback
    end
  else fallback.





End Oracle.

(** An instance for concrete examples, right on ASCII strings. *)
Definition ascii_lower (c : Ascii.ascii) : Ascii.ascii :=
  let n := Ascii.nat_of_ascii c in
  if (65 <=? n)%nat && (n <=? 90)%nat then Ascii.ascii_of_nat (n + 32) else c.

Definition ascii_upper (c : Ascii.ascii) : Ascii.ascii :=
  let n := Ascii.nat_of_ascii c in
  if (97 <=? n)%nat && (n <=? 122)%nat then Ascii.ascii_of_nat (n - 32) else c.

Fixpoint string_map (f : Ascii.ascii → Ascii.ascii) (s : string) : string :=
  match s with
  | EmptyString => EmptyString
  | String c s' => String (f c) (string_map f s')
  end.

Definition ascii_runtime : StringRuntime :=
  {| toLowerCase := string_map ascii_lower;
     toUpperCase := string_map ascii_upper;
     includes := λ s t, if String.index 0 t s is Some _ then true else false;
     charAt := λ s i, String.substring i 1 s |}.

(** ** Tool bodies ([src/tools/exampleTools.ts]) *)

(** [x.toFixed(digits)], of the runtime. *)
Class NumberToFixed := number_toFixed : float → nat → string.

Section Bodies.
Context `{NumberToString} `{StringRuntime} `{NumberToFixed}.

(** The body of [calculatorTool], on its destructured parameters. A [throw]
    in an async function rejects its promise. *)
Definition calculator_execute (operation : string) (a b : float)
    : Settlement string :=
  let op := toLowerCase operation in
  if String.eqb op "add"
  then Fulfilled (number_toString a +:+ " + " +:+ number_toString b +:+ " = "
                  +:+ number_toString (a + b)%float)
  else if String.eqb op "subtract"
  then Fulfilled (number_toString a +:+ " - " +:+ number_toString b +:+ " = "
                  +:+ number_toString (a - b)%float)
  else if String.eqb op "multiply"
  then Fulfilled (number_toString a +:+ " × " +:+ number_toString b +:+ " = "
                  +:+ number_toString (a * b)%float)
  else if String.eqb op "divide"
  then
    if PrimFloat.eqb b 0%float
    then Rejected (ErrorObject "Cannot divide by zero")
    else Fulfilled (number_toString a +:+ " ÷ " +:+ number_toString b +:+ " = "
                    +:+ number_toString (a / b)%float)
  else Rejected (ErrorObject ("Unknown operation: " +:+ operation)).

(** The destructuring [({ operation, a, b })] of a bag from which these three
    properties read as a string and two numbers; [None] on any other bag. *)
Definition calculator_arguments (params : Parameters)
    : option (string * float * float) :=
  match read_property params "operation", read_property params "a",
        read_property params "b" with
  | Some (VString operation), Some (VNumber a), Some (VNumber b) =>
      Some (operation, a, b)
  | _, _, _ => None
  end.

(** [`°${unit.charAt(0).toUpperCase()}`]. *)
Definition degree (unit : string) : string :=
  "°" +:+ toUpperCase (charAt unit 0).

(** The body of [temperatureConverterTool]; 273.15 is the double
    [0x1.1126666666666p+8]. *)
Definition convertTemperature_execute (value : float) (from to : string)
    : Settlement string :=
  let fromUnit := toLowerCase from in
  let toUnit := toLowerCase to in
  if String.eqb fromUnit toUnit
  then Fulfilled (number_toString value +:+ degree toUnit)
  else
    let celsius : Settlement float :=
      if String.eqb fromUnit "celsius" then Fulfilled value
      else if String.eqb fromUnit "fahrenheit"
      then Fulfilled ((value - 32) * (5 / 9))%float
      else if String.eqb fromUnit "kelvin"
      then Fulfilled (value - 0x1.1126666666666p+8)%float
      else Rejected (ErrorObject ("Unknown unit: " +:+ from)) in
    match celsius with
    | Rejected e => Rejected e
    | Fulfilled celsius =>
        let result : Settlement float :=
          if String.eqb toUnit "celsius" then Fulfilled celsius
          else if String.eqb toUnit "fahrenheit"
          then Fulfilled (celsius * (9 / 5) + 32)%float
          else if String.eqb toUnit "kelvin"
          then Fulfilled (celsius + 0x1.1126666666666p+8)%float
          else Rejected (ErrorObject ("Unknown unit: " +:+ to)) in
        match result with
        | Rejected e => Rejected e
        | Fulfilled result =>
            let symbol :=
              if String.eqb toUnit "kelvin" then "K" else degree toUnit in
            Fulfilled (number_toString value +:+ degree fromUnit +:+ " = "
                       +:+ number_toFixed result 2 +:+ symbol)
        end
    end.
End Bodies.

(** [toFixed], for concrete examples: right on the integers below 2^53 (not
    on NaN or the infinities). *)
Definition integral_toFixed : NumberToFixed := λ x digits,
  integral_toString x +:+ (if digits is 0 then "" else ".")
  +:+ String.concat "" (replicate digits "0").

(** ** What a step leaves alone *)

(** [untouched w w']: every Message object of [w] is the same in [w'], and so
    is every Message array of [w] other than the transcript's. *)
Definition untouched (w w' : World) : Prop :=
  (∀ l m, messageObjects (heap w) !! l = Some m →
          messageObjects (heap w') !! l = Some m)
  ∧ (∀ a xs, a ≠ messages (this w) →
             messageArrays (heap w) !! a = Some xs →
             messageArrays (heap w') !! a = Some xs).

(** [steady w w']: nothing that [w] holds has changed in [w'] but the
    transcript's array; the transcript is still in that array and the tool
    arrays are the same. *)
Definition steady (w w' : World) : Prop :=
  untouched w w'
  ∧ messages (this w') = messages (this w)
  ∧ toolArrays (heap w') = toolArrays (heap w).

(** * Properties *)

(** ** The validator *)

Section EnumerationFacts.
Context {A : Type}.
Implicit Types (o : OwnProperties A) (e : string * A).


Lemma insert_indexed_Permutation i e (l : list (N * (string * A))) :
  insert_indexed i e l ≡ₚ (i, e) :: l.
Proof.
  induction l as [|[j e'] l IH]; cbn; [done|].
  destruct (i <=? j)%N; [done|]. rewrite IH. apply Permutation_swap.
Qed.



Lemma indexed_Permutation o :
  (indexed o).*2 ≡ₚ List.filter (λ e, is_array_index e.1) o.
Proof.
  induction o as [|e o IH]; cbn; [done|]. unfold is_array_index.
  destruct (array_index e.1) as [i|]; [|done].
  rewrite insert_indexed_Permutation. cbn. by rewrite IH.
Qed.

Lemma named_filter o :
  named o = List.filter (λ e, negb (is_array_index e.1)) o.
Proof.
  induction o as [|e o IH]; cbn; [done|]. unfold is_array_index.
  destruct (array_index e.1) as [i|]; cbn; by rewrite IH.
Qed.


Lemma Object_entries_Permutation o : Object_entries o ≡ₚ o.
Proof.
  unfold Object_entries. rewrite indexed_Permutation, named_filter.
  induction o as [|e o IH]; cbn; [done|].
  destruct (is_array_index e.1); cbn.
  - by rewrite IH.
  - rewrite <- Permutation_middle. by rewrite IH.
Qed.

Lemma Object_entries_elem_of o e : e ∈ Object_entries o ↔ e ∈ o.
Proof. by rewrite Object_entries_Permutation. Qed.


Lemma Object_entries_singleton e : Object_entries [e] = [e].
Proof. unfold Object_entries. cbn. by destruct (array_index e.1). Qed.
End EnumerationFacts.

Section ValidatorFacts.
Context `{NumberToString}.

Lemma Object_prototype_typeof name v s :
  Object_prototype name = Some v → typeof v ≠ Param.type s.
Proof.
  unfold Object_prototype.
  destruct (existsb _ _); [|destruct (String.eqb _ _)]; intros [= <-];
    by destruct s.
Qed.

Lemma Object_prototype_member name :
  name ∈ Object_prototype_functions ∨ name = "__proto__" →
  ∃ v, Object_prototype name = Some v
       ∧ (name ∈ Object_prototype_functions → v = VFunction name).
Proof.
  unfold Object_prototype. intros [Hin | ->].
  - assert (existsb (String.eqb name) Object_prototype_functions = true) as ->.
    { apply existsb_exists. exists name.
      split; [by apply list_elem_of_In|apply String.eqb_refl]. }
    by exists (VFunction name).
  - exists (VObject "Object.prototype"). split; [reflexivity|].
    intros Hin. exfalso. revert Hin. unfold Object_prototype_functions.
    rewrite !elem_of_cons, elem_of_nil. intuition discriminate.
Qed.

Lemma read_property_own parameters n v :
  parameters !! n = Some v → read_property parameters n = Some v.
Proof. unfold read_property. by intros ->. Qed.

Lemma read_property_inherited parameters n :
  parameters !! n = None → read_property parameters n = Object_prototype n.
Proof. unfold read_property. by intros ->. Qed.

Lemma type_mismatch_eq n s v reason :
  typeof v ≠ Param.type s →
  reason = "Parameter " +:+ n +:+ " must be a " +:+ type_name (Param.type s) →
  Violates n s (Some v) reason.
Proof. intros Hty ->. by constructor. Qed.

Lemma checkParameter_sound n s v r :
  checkParameter n s v = Some r →
  ∃ e, r = {| valid := false; error := Some e |} ∧ Violates n s v e.
Proof.
  unfold checkParameter.
  destruct v as [v|]; cycle 1.
  - rewrite andb_true_r.
    destruct (Param.required s) as [[]|] eqn:Hreq; simpl; try discriminate.
    intros [= <-]. eexists; split; [reflexivity|]. by constructor.
  - rewrite andb_false_r. cbv zeta.
    destruct s as [d r0 df|d r0 df mn mx|d r0 df], v as [x|x|x|x|x]; simpl;
      try discriminate;
      try (intros [= <-]; eexists; split; [reflexivity|];
           by apply type_mismatch_eq).
    destruct mn as [mn|]; [destruct (PrimFloat.ltb x mn) eqn:Hmn|].
    + intros [= <-]. eexists; split; [reflexivity|].
      by apply (below_min _ _ x mn).
    + destruct mx as [mx|]; [|discriminate].
      destruct (PrimFloat.ltb mx x) eqn:Hmx; [|discriminate].
      intros [= <-]. eexists; split; [reflexivity|].
      by apply (above_max _ _ x mx).
    + destruct mx as [mx|]; [|discriminate].
      destruct (PrimFloat.ltb mx x) eqn:Hmx; [|discriminate].
      intros [= <-]. eexists; split; [reflexivity|].
      by apply (above_max _ _ x mx).
Qed.

Lemma checkParameter_complete n s v :
  checkParameter n s v = None → ∀ e, ¬ Violates n s v e.
Proof.
  unfold checkParameter. intros Hc e Hv.
  destruct Hv as [Hreq|v Hty|x mn Hty Hmn Hlt|x mx Hty Hmx Hlt].
  - rewrite Hreq in Hc. discriminate.
  - rewrite andb_false_r in Hc. cbv zeta in Hc.
    destruct s, v; simpl in *; congruence.
  - rewrite andb_false_r in Hc. cbv zeta in Hc.
    destruct s; simpl in *; try discriminate.
    rewrite Hmn, Hlt in Hc. discriminate.
  - rewrite andb_false_r in Hc. cbv zeta in Hc.
    destruct s as [| d r0 df mn ? |]; simpl in *; try discriminate.
    rewrite Hmx, Hlt in Hc.
    destruct mn as [mn|]; [destruct (PrimFloat.ltb x mn)|]; discriminate.
Qed.

Lemma validateEntries_cases entries parameters :
  (validateEntries entries parameters = {| valid := true; error := None |}
   ∧ Forall (complies parameters) entries)
  ∨ (∃ pre n s post e,
       entries = pre ++ (n, s) :: post
       ∧ Forall (complies parameters) pre
       ∧ Violates n s (read_property parameters n) e
       ∧ validateEntries entries parameters
         = {| valid := false; error := Some e |}).
Proof.
  induction entries as [|[n s] rest IH]; simpl.
  - left. split; [reflexivity|constructor].
  - destruct (checkParameter n s (read_property parameters n)) as [r|] eqn:Hc.
    + right. apply checkParameter_sound in Hc as (e & -> & Hv).
      exists [], n, s, rest, e. repeat split; [constructor|done].
    + assert (complies parameters (n, s)) as Hok
        by (intros e; by apply checkParameter_complete).
      destruct IH as [[Hr Hall]|(pre & n' & s' & post & e & -> & Hpre & Hv & Hr)].
      * left. split; [done|by constructor].
      * right. exists ((n, s) :: pre), n', s', post, e.
        repeat split; [by constructor|done|done].
Qed.





Lemma validateEntries_valid_error entries parameters :
  valid (validateEntries entries parameters) = true
  ∨ ∃ e, validateEntries entries parameters
         = {| valid := false; error := Some e |}.
Proof.
  destruct (validateEntries_cases entries parameters)
    as [[-> _]|(pre & n & s & post & e & _ & _ & _ & ->)]; eauto.
Qed.


Lemma checkParameter_mismatch n s v :
  typeof v ≠ Param.type s →
  checkParameter n s (Some v)
  = Some {| valid := false;
            error := Some ("Parameter " +:+ n +:+ " must be a "
                           +:+ type_name (Param.type s)) |}.
Proof.
  intros Hty. unfold checkParameter. rewrite andb_false_r. cbv zeta.
  destruct s, v; simpl in *; first [reflexivity|congruence].
Qed.

Lemma checkParameter_below n s x mn :
  Param.type s = TNumber → Param.min s = Some mn →
  PrimFloat.ltb x mn = true →
  checkParameter n s (Some (VNumber x))
  = Some {| valid := false;
            error := Some ("Parameter " +:+ n +:+ " must be >= "
                           +:+ number_toString mn) |}.
Proof.
  intros Hty Hmn Hlt. unfold checkParameter. rewrite andb_false_r. cbv zeta.
  destruct s; simpl in *; try discriminate. by rewrite Hmn, Hlt.
Qed.

Lemma checkParameter_above n s x mx :
  Param.type s = TNumber → Param.max s = Some mx →
  PrimFloat.ltb mx x = true →
  (∀ mn, Param.min s = Some mn → PrimFloat.ltb x mn = false) →
  checkParameter n s (Some (VNumber x))
  = Some {| valid := false;
            error := Some ("Parameter " +:+ n +:+ " must be <= "
                           +:+ number_toString mx) |}.
Proof.
  intros Hty Hmx Hlt Hmin. unfold checkParameter. rewrite andb_false_r. cbv zeta.
  destruct s as [|d r0 df mn ?|]; simpl in *; try discriminate.
  rewrite Hmx, Hlt. destruct mn as [mn|]; [|done]. by rewrite (Hmin mn).
Qed.

(** What a bag that passed the loop holds for a declared parameter. *)
Lemma validateEntries_typed entries parameters n s :
  valid (validateEntries entries parameters) = true →
  (n, s) ∈ entries →
  (isRequiredParam s = true → ∃ v, parameters !! n = Some v)
  ∧ (∀ v, parameters !! n = Some v →
       typeof v = Param.type s
       ∧ ∀ x, v = VNumber x →
           (∀ mn, Param.min s = Some mn → PrimFloat.ltb x mn = false)
           ∧ (∀ mx, Param.max s = Some mx → PrimFloat.ltb mx x = false)).
Proof.
  intros Hvalid Hin.
  assert (complies parameters (n, s)) as Hok.
  { destruct (validateEntries_cases entries parameters)
      as [[_ Hall]|(pre & n' & s' & post & e & _ & _ & _ & Hr)].
    - rewrite Forall_forall in Hall. by apply Hall.
    - rewrite Hr in Hvalid. discriminate. }
  unfold complies in Hok. cbn [fst snd] in Hok. split.
  - intros Hreq. destruct (parameters !! n) as [v|] eqn:Hv; [by exists v|].
    exfalso. rewrite (read_property_inherited _ _ Hv) in Hok.
    destruct (Object_prototype n) as [v|] eqn:Hproto.
    + eapply Hok. apply type_mismatch.
      exact (Object_prototype_typeof _ _ s Hproto).
    + apply (Hok ("Missing required parameter: " +:+ n)).
      constructor. unfold isRequiredParam in Hreq.
      by destruct (Param.required s) as [[]|].
  - intros v Hv. rewrite (read_property_own _ _ _ Hv) in Hok.
    assert (typeof v = Param.type s) as Hty.
    { destruct (decide (typeof v = Param.type s)) as [|Hne]; [done|].
      exfalso. eapply Hok. by apply type_mismatch. }
    split; [done|]. intros x ->. split.
    + intros mn Hmn. destruct (PrimFloat.ltb x mn) eqn:Hlt; [|done].
      exfalso. eapply Hok. by eapply below_min.
    + intros mx Hmx. destruct (PrimFloat.ltb mx x) eqn:Hlt; [|done].
      exfalso. eapply Hok. by eapply above_max.
Qed.

Lemma validateParameters_typed tool parameters n s :
  valid (validateParameters tool parameters) = true →
  (n, s) ∈ Tool.parameters tool →
  (isRequiredParam s = true → ∃ v, parameters !! n = Some v)
  ∧ (∀ v, parameters !! n = Some v →
       typeof v = Param.type s
       ∧ ∀ x, v = VNumber x →
           (∀ mn, Param.min s = Some mn → PrimFloat.ltb x mn = false)
           ∧ (∀ mx, Param.max s = Some mx → PrimFloat.ltb mx x = false)).
Proof.
  intros Hvalid Hin. apply (validateEntries_typed _ _ _ _ Hvalid).
  by apply Object_entries_elem_of.
Qed.

End ValidatorFacts.

(** ** The heap and the transcript *)

Lemma fresh_lookup_None {A} (m : gmap loc A) : m !! fresh (dom m) = None.
Proof. apply not_elem_of_dom, is_fresh. Qed.

Lemma mapM_lookup_insert_fresh (objs : gmap loc Message.t) l m xs old :
  objs !! l = None →
  mapM (λ k, objs !! k) xs = Some old →
  mapM (λ k, <[l := m]> objs !! k) xs = Some old.
Proof.
  intros Hl. rewrite !mapM_Some. intros Hxs.
  eapply Forall2_impl; [exact Hxs|]. simpl.
  intros k y Hk. rewrite lookup_insert_ne; [done|]. intros ->. congruence.
Qed.

Lemma bind_run {A B} (m : M A) (k : A → M B) w :
  (m ≫= k) w = k (m w).1 (m w).2.
Proof. reflexivity. Qed.

Lemma push_message_this m w : this (push_message m w).2 = this w.
Proof. reflexivity. Qed.

Lemma push_message_toolArrays m w :
  toolArrays (heap (push_message m w).2) = toolArrays (heap w).
Proof. reflexivity. Qed.

Lemma push_message_transcript m w old :
  transcript w = Some old →
  transcript (push_message m w).2 = Some (old ++ [m]).
Proof.
  unfold transcript, read_messages. intros Hold.
  apply bind_Some in Hold as (xs & Harr & Hxs).
  unfold push_message. rewrite !bind_run.
  unfold get_this, push, new_message.
  cbn [fst snd heap this messages messageArrays messageObjects].
  rewrite lookup_alter_eq, Harr. cbn.
  apply mapM_Some, Forall2_app.
  - apply mapM_Some, mapM_lookup_insert_fresh; [apply fresh_lookup_None|done].
  - repeat constructor. apply lookup_insert_eq.
Qed.

(** ** The steps of [run] *)

Section StepFacts.
Context `{NumberToString}.

Lemma appends_trans w new b w' new' b' w'' :
  appends w new b w' → appends w' new' b' w'' →
  appends w (new ++ new') b' w''.
Proof.
  intros (Ht & Ha & Hm & Hts & _) (Ht' & Ha' & Hm' & Hts' & Hb').
  repeat split; try congruence.
  intros old Hold. rewrite app_assoc. eauto.
Qed.

Lemma appends_agent_tools w new b w' :
  appends w new b w' → agent_tools w' = agent_tools w.
Proof. intros (_ & Ha & _ & Hts & _). unfold agent_tools. by rewrite Ha, Hts. Qed.

Lemma push_message_appends m w :
  appends w [m] (isRunning (this w)) (push_message m w).2.
Proof.
  repeat split. intros old. apply push_message_transcript.
Qed.

Lemma set_isRunning_appends b w : appends w [] b (set_isRunning b w).2.
Proof.
  repeat split. intros old Hold. by rewrite app_nil_r.
Qed.

Lemma push_text_appends response now w :
  appends w (text_messages response now) (isRunning (this w))
    (push_text response now w).2.
Proof.
  unfold push_text, text_messages.
  destruct (text response) as [[|c s]|].
  - repeat split. intros old Hold. by rewrite app_nil_r.
  - apply push_message_appends.
  - repeat split. intros old Hold. by rewrite app_nil_r.
Qed.

Lemma executeTool_run tc w :
  executeTool tc w = (dispatch (agent_tools w) tc, w).
Proof. reflexivity. Qed.

Lemma run_busy userMessage now w :
  isRunning (this w) = true →
  run userMessage now w
  = (Settled (Rejected (ErrorObject "Agent is already running")), w).
Proof. intros Hb. unfold run. rewrite bind_run. cbn. by rewrite Hb. Qed.

Lemma run_idle userMessage now w :
  isRunning (this w) = false →
  (run userMessage now w).1 = AwaitDecide (call_of (this w))
  ∧ appends w [userMsg userMessage now] true (run userMessage now w).2.
Proof.
  intros Hb. unfold run. rewrite bind_run. cbn [get_this fst snd]. rewrite Hb.
  rewrite !bind_run. split; [reflexivity|].
  apply (appends_trans w [] true (set_isRunning true w).2
           [userMsg userMessage now] true).
  - apply set_isRunning_appends.
  - apply (push_message_appends _ (set_isRunning true w).2).
Qed.

Lemma return_messages_run w :
  (return_messages w).1 = Settled (Fulfilled (messages (this w)))
  ∧ appends w [] false (return_messages w).2.
Proof. split; [reflexivity|apply set_isRunning_appends]. Qed.

Lemma throw_run e w :
  (throw e w).1 = Settled (Rejected e) ∧ appends w [] false (throw e w).2.
Proof. split; [reflexivity|apply set_isRunning_appends]. Qed.

Lemma after_tool_run toolResult now w :
  (after_tool toolResult now w).1 = AwaitSummarize (call_of (this w))
  ∧ appends w [toolMsg toolResult now] (isRunning (this w))
      (after_tool toolResult now w).2.
Proof.
  unfold after_tool. rewrite !bind_run. split; [reflexivity|].
  apply push_message_appends.
Qed.

Lemma finish_text_run response now w :
  ((push_text response now;; return_messages) w).1
  = Settled (Fulfilled (messages (this w)))
  ∧ appends w (text_messages response now) false
      ((push_text response now;; return_messages) w).2.
Proof.
  rewrite bind_run.
  pose proof (push_text_appends response now w) as Hp.
  destruct (return_messages_run (push_text response now w).2) as [-> Hr].
  split.
  - f_equal. f_equal. by destruct Hp as (_ & _ & -> & _).
  - rewrite <- (app_nil_r (text_messages response now)).
    by eapply appends_trans.
Qed.
End StepFacts.

(** ** One whole turn *)

Section TurnFacts.
Context `{NumberToString}.

Lemma resume_decide_run reply now w :
  let r := resume_decide reply now w in
  match reply with
  | Rejected e => r.1 = Settled (Rejected e) ∧ appends w [] false r.2
  | Fulfilled response =>
      match toolCall response with
      | None =>
          r.1 = Settled (Fulfilled (messages (this w)))
          ∧ appends w (text_messages response now) false r.2
      | Some tc =>
          match dispatch (agent_tools w) tc with
          | inl toolResult =>
              r.1 = AwaitSummarize (call_of (this w))
              ∧ appends w [toolMsg toolResult now] (isRunning (this w)) r.2
          | inr tool => r = (AwaitExecute tc tool, w)
          end
      end
  end.
Proof.
  destruct reply as [response|e]; cbn zeta.
  - unfold resume_decide. destruct (toolCall response) as [tc|].
    + rewrite bind_run, executeTool_run. cbn [fst snd].
      destruct (dispatch (agent_tools w) tc) as [toolResult|tool].
      * apply after_tool_run.
      * reflexivity.
    + apply finish_text_run.
  - apply throw_run.
Qed.

Lemma resume_summarize_run reply now w :
  (resume_summarize reply now w).1 = Settled (settlement_of (this w) reply)
  ∧ appends w (reply_messages reply now) false (resume_summarize reply now w).2.
Proof.
  destruct reply as [response|e]; [apply finish_text_run|apply throw_run].
Qed.

Lemma drive_settled fuel turn s w :
  drive fuel turn (Settled s) w = ([Settled s], w).
Proof. by destruct fuel. Qed.

Lemma drive_pending fuel turn st w :
  pending st = true →
  drive (S fuel) turn st w
  = (st :: (drive fuel turn (advance turn st w).1 (advance turn st w).2).1,
     (drive fuel turn (advance turn st w).1 (advance turn st w).2).2).
Proof. by destruct st. Qed.

(** From the second await to the end. *)
Lemma drive_summarize fuel turn call w :
  let r := drive (S fuel) turn (AwaitSummarize call) w in
  r.1 = [AwaitSummarize call;
         Settled (settlement_of (this w) (summarizeReply turn))]
  ∧ appends w (reply_messages (summarizeReply turn) (clock turn 3)) false r.2.
Proof.
  cbn zeta. rewrite drive_pending by done. cbn [advance fst snd].
  destruct (resume_summarize_run (summarizeReply turn) (clock turn 3) w)
    as [-> Hw].
  rewrite drive_settled. by split.
Qed.

(** From the tool's await to the end. *)
Lemma drive_execute fuel turn tc tool w :
  let r := drive (S (S fuel)) turn (AwaitExecute tc tool) w in
  r.1 = [AwaitExecute tc tool; AwaitSummarize (call_of (this w));
         Settled (settlement_of (this w) (summarizeReply turn))]
  ∧ appends w
      (toolMsg (executeTool_settle tc (toolOutcome turn)) (clock turn 2)
       :: reply_messages (summarizeReply turn) (clock turn 3))
      false r.2.
Proof.
  cbn zeta. rewrite drive_pending by done. cbn [advance fst snd].
  unfold resume_execute.
  destruct (after_tool_run (executeTool_settle tc (toolOutcome turn))
              (clock turn 2) w) as [-> Hw].
  set (w1 := (after_tool _ _ w).2) in *.
  destruct (drive_summarize fuel turn (call_of (this w)) w1) as [-> Hw1].
  assert (this w1 = this w) as Hthis.
  { destruct Hw as (_ & Ha & Hm & _ & Hb).
    destruct (this w1), (this w); simpl in *; congruence. }
  rewrite Hthis. split; [done|].
  exact (appends_trans _ _ _ _ _ _ _ Hw Hw1).
Qed.
Lemma call_of_appends w new b w' :
  appends w new b w' → call_of (this w') = call_of (this w).
Proof. intros (_ & Ha & Hm & _). unfold call_of. by rewrite Ha, Hm. Qed.

Lemma settlement_of_appends w new b w' reply :
  appends w new b w' →
  settlement_of (this w') reply = settlement_of (this w) reply.
Proof. intros (_ & _ & Hm & _). unfold settlement_of. by rewrite Hm. Qed.

(** What a turn does on an idle executor. *)
Lemma run_turn_spec turn userMessage w :
  isRunning (this w) = false →
  (run_turn turn userMessage w).1 = turn_steps (this w) (agent_tools w) turn
  ∧ appends w (turn_messages (agent_tools w) turn userMessage) false
      (run_turn turn userMessage w).2.
Proof.
  intros Hidle. unfold run_turn. rewrite bind_run.
  destruct (run_idle userMessage (clock turn 0) w Hidle) as [-> Hw1].
  set (w1 := (run userMessage (clock turn 0) w).2) in *.
  pose proof (appends_agent_tools _ _ _ _ Hw1) as Htools.
  pose proof (call_of_appends _ _ _ _ Hw1) as Hcall.
  assert (messages (this w1) = messages (this w)) as Hmsgs
    by (by destruct Hw1 as (_ & _ & -> & _)).
  rewrite drive_pending by done. cbn [advance fst snd].
  pose proof (resume_decide_run (decideReply turn) (clock turn 1) w1) as Hd.
  unfold turn_steps, turn_messages. cbn zeta in Hd.
  destruct (decideReply turn) as [response|e].
  - destruct (toolCall response) as [tc|].
    + rewrite Htools in Hd.
      destruct (dispatch (agent_tools w) tc) as [toolResult|tool].
      * destruct Hd as [-> Hw2].
        set (w2 := (resume_decide _ _ w1).2) in *.
        destruct (drive_summarize 1 turn (call_of (this w1)) w2) as [-> Hw3].
        rewrite (settlement_of_appends _ _ _ _ _ Hw2),
          (settlement_of_appends _ _ _ _ _ Hw1), Hcall.
        split; [done|].
        exact (appends_trans _ _ _ _ _ _ _ Hw1
                 (appends_trans _ _ _ _ _ _ _ Hw2 Hw3)).
      * rewrite Hd. cbn [fst snd].
        destruct (drive_execute 0 turn tc tool w1) as [-> Hw3].
        rewrite (settlement_of_appends _ _ _ _ _ Hw1), Hcall.
        split; [done|].
        exact (appends_trans _ _ _ _ _ _ _ Hw1 Hw3).
    + destruct Hd as [-> Hw2]. rewrite drive_settled, Hmsgs.
      split; [done|].
      exact (appends_trans _ _ _ _ _ _ _ Hw1 Hw2).
  - destruct Hd as [-> Hw2]. rewrite drive_settled.
    split; [done|].
    exact (appends_trans _ _ _ _ _ _ _ Hw1 Hw2).
Qed.
End TurnFacts.

(** ** The single-flight guard *)

Section GuardFacts.
Context `{NumberToString}.

Lemma invoke_keeps_running c w :
  isRunning (this w) = true → isRunning (this (invoke c w)) = true.
Proof.
  intros Hb. destruct c as [userMessage now| |now| |μ]; cbn [invoke]; try done.
  by rewrite run_busy.
Qed.

(** While a run is suspended the flag is up; once it has settled the flag
    is down. *)
Lemma in_flight_flag st w :
  in_flight st w → isRunning (this w) = pending st.
Proof.
  induction 1 as [w userMessage now Hidle
                 |call w reply now _ IH
                 |tc tool w outcome now _ IH
                 |call w reply now _ IH
                 |st w c _ IH Hp].
  - destruct (run_idle userMessage now w Hidle) as [-> (_ & _ & _ & _ & ->)].
    done.
  - pose proof (resume_decide_run reply now w) as Hd. cbn zeta in Hd.
    destruct reply as [response|e].
    + destruct (toolCall response) as [tc|].
      * destruct (dispatch (agent_tools w) tc).
        -- destruct Hd as [-> (_ & _ & _ & _ & ->)]. done.
        -- rewrite Hd. done.
      * destruct Hd as [-> (_ & _ & _ & _ & ->)]. done.
    + destruct Hd as [-> (_ & _ & _ & _ & ->)]. done.
  - unfold resume_execute.
    destruct (after_tool_run (executeTool_settle tc outcome) now w)
      as [-> (_ & _ & _ & _ & ->)]. done.
  - destruct (resume_summarize_run reply now w) as [-> (_ & _ & _ & _ & ->)].
    done.
  - rewrite Hp in *. by apply invoke_keeps_running.
Qed.

Lemma turn_steps_settle ex tools turn :
  ∃ steps s, turn_steps ex tools turn = steps ++ [Settled s].
Proof.
  unfold turn_steps. destruct (decideReply turn) as [response|e].
  - destruct (toolCall response) as [tc|].
    + destruct (dispatch tools tc) as [toolResult|tool].
      * by exists [AwaitDecide (call_of ex); AwaitSummarize (call_of ex)],
          (settlement_of ex (summarizeReply turn)).
      * by exists [AwaitDecide (call_of ex); AwaitExecute tc tool;
                   AwaitSummarize (call_of ex)],
          (settlement_of ex (summarizeReply turn)).
    + by exists [AwaitDecide (call_of ex)], (Fulfilled (messages ex)).
  - by exists [AwaitDecide (call_of ex)], (Rejected e).
Qed.

(** C1: a call of [run] made while an earlier call on the same executor is
    still suspended is rejected with the error "Agent is already running"
    and leaves the world (so the transcript) as it was; a run that has
    settled, whichever way (normal return, tool failure, rejected oracle
    call), has put the flag down; and a turn on an idle executor always
    settles, with the flag down. *)
Theorem single_flight :
  (∀ st w, in_flight st w → pending st = true →
     ∀ userMessage now,
       run userMessage now w
       = (Settled (Rejected (ErrorObject "Agent is already running")), w))
  ∧ (∀ s w, in_flight (Settled s) w → isRunning (this w) = false)
  ∧ (∀ turn userMessage w,
       isRunning (this w) = false →
       isRunning (this (run_turn turn userMessage w).2) = false
       ∧ ∃ steps s, (run_turn turn userMessage w).1 = steps ++ [Settled s]).
Proof.
  split; [|split].
  - intros st w Hin Hp userMessage now. apply run_busy.
    by rewrite (in_flight_flag _ _ Hin).
  - intros s w Hin. by rewrite (in_flight_flag _ _ Hin).
  - intros turn userMessage w Hidle.
    destruct (run_turn_spec turn userMessage w Hidle)
      as [-> (_ & _ & _ & _ & ->)].
    split; [done|apply turn_steps_settle].
Qed.
End GuardFacts.

(** ** The transcript after a turn *)

Section TranscriptFacts.
Context `{NumberToString}.

Lemma text_messages_cases response now :
  (∃ s, text response = Some s ∧ s ≠ ""
        ∧ text_messages response now = [assistantMsg s now])
  ∨ ((text response = None ∨ text response = Some "")
     ∧ text_messages response now = []).
Proof.
  unfold text_messages. destruct (text response) as [[|c s]|]; eauto.
Qed.

Lemma turn_steps_fulfilled ex tools turn steps msgs :
  turn_steps ex tools turn = steps ++ [Settled (Fulfilled msgs)] →
  ∃ response,
    decideReply turn = Fulfilled response
    ∧ (toolCall response = None
       ∨ ∃ final, summarizeReply turn = Fulfilled final).
Proof.
  unfold turn_steps. intros Hsteps.
  destruct (decideReply turn) as [response|e].
  - exists response. split; [done|].
    destruct (toolCall response) as [tc|]; [right|by left].
    destruct (summarizeReply turn) as [final|e]; [by eexists|].
    exfalso. rewrite app_comm_cons in Hsteps.
    destruct (dispatch tools tc); cbn in Hsteps.
    + apply (app_inj_tail [_; _]) in Hsteps as [_ [=]].
    + apply (app_inj_tail [_; _; _]) in Hsteps as [_ [=]].
  - exfalso. apply (app_inj_tail [_]) in Hsteps as [_ [=]].
Qed.

(** C2 (as amended): when [run userMessage] completes normally on an idle
    executor, the transcript is the one before with this appended, in this
    order: the user message; then one tool-role message exactly when the
    decide-phase reply carried a tool call; then one assistant message
    exactly when the relevant reply (the summarize reply after a tool call,
    the decide reply otherwise) carried a non-empty text. Nothing that was
    there before is altered or removed. *)
Theorem run_appends_in_order turn userMessage w old steps msgs :
  isRunning (this w) = false →
  transcript w = Some old →
  (run_turn turn userMessage w).1 = steps ++ [Settled (Fulfilled msgs)] →
  ∃ response relevant toolPart textPart,
    decideReply turn = Fulfilled response
    ∧ transcript (run_turn turn userMessage w).2
      = Some (old ++ [{| Message.role := Role.user;
                         Message.content := userMessage;
                         Message.timestamp := clock turn 0;
                         Message.toolName := None;
                         Message.toolResult := None |}] ++ toolPart ++ textPart)
    ∧ ((∃ tc m, toolCall response = Some tc
                ∧ summarizeReply turn = Fulfilled relevant
                ∧ toolPart = [m] ∧ Message.role m = Role.tool)
       ∨ (toolCall response = None ∧ relevant = response ∧ toolPart = []))
    ∧ ((∃ s now, text relevant = Some s ∧ s ≠ ""
                 ∧ textPart = [{| Message.role := Role.assistant;
                                  Message.content := s;
                                  Message.timestamp := now;
                                  Message.toolName := None;
                                  Message.toolResult := None |}])
       ∨ ((text relevant = None ∨ text relevant = Some "") ∧ textPart = [])).
Proof.
  intros Hidle Hold Hsteps.
  destruct (run_turn_spec turn userMessage w Hidle) as [Hs (Ht & _)].
  rewrite Hs in Hsteps. specialize (Ht old Hold). rewrite Ht.
  apply turn_steps_fulfilled in Hsteps as (response & Hd & Hfin).
  unfold turn_messages. rewrite Hd.
  destruct (toolCall response) as [tc|] eqn:Htc.
  - destruct Hfin as [[=]|[final Hfinal]]. rewrite Hfinal. cbn [reply_messages].
    exists response, final.
    exists [match dispatch (agent_tools w) tc with
            | inl toolResult => toolMsg toolResult (clock turn 1)
            | inr _ =>
                toolMsg (executeTool_settle tc (toolOutcome turn)) (clock turn 2)
            end], (text_messages final (clock turn 3)).
    split; [done|].
    split; [by destruct (dispatch (agent_tools w) tc)|]. split.
    + left. eexists tc, _. repeat split; [done|].
      by destruct (dispatch (agent_tools w) tc).
    + destruct (text_messages_cases final (clock turn 3))
        as [(s & ? & ? & ?)|[? ?]]; [left; by exists s, (clock turn 3)|by right].
  - exists response, response, [], (text_messages response (clock turn 1)).
    split; [done|]. split; [done|]. split; [by right|].
    destruct (text_messages_cases response (clock turn 1))
      as [(s & ? & ? & ?)|[? ?]]; [left; by exists s, (clock turn 1)|by right].
Qed.

(** C10: when the decide-phase reply has neither a tool call nor a text,
    [run] completes normally (it is fulfilled after its one oracle call,
    with the flag down) and the transcript gains one message only, the
    user-role message holding [userMessage]: no tool-role or assistant-role
    message is appended. *)
Theorem run_neither_text_nor_toolCall turn userMessage w old :
  isRunning (this w) = false →
  transcript w = Some old →
  decideReply turn = Fulfilled {| text := None; toolCall := None |} →
  (run_turn turn userMessage w).1
  = [AwaitDecide {| llm_prompt := Agent.prompt (agent (this w));
                    llm_messages := messages (this w);
                    llm_availableTools := Agent.tools (agent (this w)) |};
     Settled (Fulfilled (messages (this w)))]
  ∧ transcript (run_turn turn userMessage w).2
    = Some (old ++ [{| Message.role := Role.user;
                       Message.content := userMessage;
                       Message.timestamp := clock turn 0;
                       Message.toolName := None;
                       Message.toolResult := None |}])
  ∧ isRunning (this (run_turn turn userMessage w).2) = false.
Proof.
  intros Hidle Hold Hd.
  destruct (run_turn_spec turn userMessage w Hidle)
    as [Hs (Ht & _ & _ & _ & Hb)].
  rewrite Hs, (Ht old Hold), Hb. unfold turn_steps, turn_messages.
  by rewrite Hd.
Qed.
End TranscriptFacts.

(** ** Tool dispatch *)

Section DispatchFacts.
Context `{NumberToString}.

Lemma dispatch_not_found tools tc :
  Forall (λ t, Tool.name t ≠ ToolCall.toolName tc) tools →
  dispatch tools tc
  = inl {| ToolResult.toolName := ToolCall.toolName tc;
           ToolResult.success := false;
           ToolResult.result := None;
           ToolResult.error :=
             Some ("Tool " +:+ dquote +:+ ToolCall.toolName tc
                   +:+ dquote +:+ " not found") |}.
Proof.
  intros Hall. unfold dispatch.
  destruct (find _ tools) as [tool|] eqn:Hfind; [|done].
  apply find_some in Hfind as [Hin Heq].
  apply String.eqb_eq in Heq.
  rewrite Forall_forall in Hall. apply list_elem_of_In in Hin.
  by destruct (Hall tool Hin).
Qed.

Lemma dispatch_invalid tools tc tool reason :
  find (λ t, String.eqb (Tool.name t) (ToolCall.toolName tc)) tools = Some tool →
  validateParameters tool (ToolCall.parameters tc)
  = {| valid := false; error := Some reason |} →
  dispatch tools tc
  = inl {| ToolResult.toolName := ToolCall.toolName tc;
           ToolResult.success := false;
           ToolResult.result := None;
           ToolResult.error := Some reason |}.
Proof. intros Hfind Hv. unfold dispatch. by rewrite Hfind, Hv. Qed.

Lemma dispatch_valid tools tc tool :
  find (λ t, String.eqb (Tool.name t) (ToolCall.toolName tc)) tools = Some tool →
  valid (validateParameters tool (ToolCall.parameters tc)) = true →
  dispatch tools tc = inr tool.
Proof. intros Hfind Hv. unfold dispatch. by rewrite Hfind, Hv. Qed.

(** C6: when the decide-phase reply asks for a tool whose name none of the
    agent's tools has, the run goes on to the summarize call without
    raising anything, having appended a tool-role message whose content is
    [Error: Tool "<name>" not found], with [toolName] set and [toolResult]
    unset; its promise is rejected only if the summarize call is. *)
Theorem unknown_tool_message turn userMessage w old response tc :
  isRunning (this w) = false →
  transcript w = Some old →
  decideReply turn = Fulfilled response →
  toolCall response = Some tc →
  Forall (λ t, Tool.name t ≠ ToolCall.toolName tc) (agent_tools w) →
  (run_turn turn userMessage w).1
  = [AwaitDecide (call_of (this w)); AwaitSummarize (call_of (this w));
     Settled (match summarizeReply turn with
              | Fulfilled _ => Fulfilled (messages (this w))
              | Rejected e => Rejected e
              end)]
  ∧ ∃ rest,
      transcript (run_turn turn userMessage w).2
      = Some (old ++ [userMsg userMessage (clock turn 0);
                      {| Message.role := Role.tool;
                         Message.content :=
                           "Error: Tool " +:+ dquote +:+ ToolCall.toolName tc
                           +:+ dquote +:+ " not found";
                         Message.timestamp := clock turn 1;
                         Message.toolName := Some (ToolCall.toolName tc);
                         Message.toolResult := None |}] ++ rest)
      ∧ Forall (λ m, Message.role m = Role.assistant) rest.
Proof.
  intros Hidle Hold Hd Htc Hnone.
  destruct (run_turn_spec turn userMessage w Hidle) as [Hs (Ht & _)].
  rewrite Hs, (Ht old Hold). unfold turn_steps, turn_messages.
  rewrite Hd, Htc, (dispatch_not_found _ _ Hnone). split; [done|].
  exists (reply_messages (summarizeReply turn) (clock turn 3)). split; [done|].
  destruct (summarizeReply turn) as [final|e]; [|constructor].
  cbn. unfold text_messages.
  destruct (text final) as [[|c s]|]; repeat constructor.
Qed.

(** C4 (as amended): failures during a tool call end up in the transcript
    and are not thrown. After a decide-phase reply that asks for a tool, the
    promise of [run] is rejected only if the summarize call is. Validation
    either succeeds or gives a reason. When the parameters fail validation,
    the tool body is not invoked (the run never awaits it) and the ToolResult
    and the tool-role message carry the validator's reason. When the body
    raises, what it raised is caught: the ToolResult and the tool-role
    message carry the message of the [Error] raised, and the fixed text
    [Unknown error] when what was raised is not an [Error]. *)
Theorem tool_failures_folded turn userMessage w old response tc :
  isRunning (this w) = false →
  transcript w = Some old →
  decideReply turn = Fulfilled response →
  toolCall response = Some tc →
  let r := run_turn turn userMessage w in
  let settled :=
    Settled (match summarizeReply turn with
             | Fulfilled _ => Fulfilled (messages (this w))
             | Rejected e => Rejected e
             end) in
  let user :=
    {| Message.role := Role.user;
       Message.content := userMessage;
       Message.timestamp := clock turn 0;
       Message.toolName := None;
       Message.toolResult := None |} in
  let failure reason now :=
    {| Message.role := Role.tool;
       Message.content := "Error: " +:+ reason;
       Message.timestamp := now;
       Message.toolName := Some (ToolCall.toolName tc);
       Message.toolResult := None |} in
  (∃ steps, r.1 = steps ++ [settled])
  ∧ (∀ tool,
       valid (validateParameters tool (ToolCall.parameters tc)) = true
       ∨ ∃ reason,
           validateParameters tool (ToolCall.parameters tc)
           = {| valid := false; error := Some reason |})
  ∧ (∀ tool reason,
       find (λ t, String.eqb (Tool.name t) (ToolCall.toolName tc))
         (agent_tools w) = Some tool →
       validateParameters tool (ToolCall.parameters tc)
       = {| valid := false; error := Some reason |} →
       dispatch (agent_tools w) tc
       = inl {| ToolResult.toolName := ToolCall.toolName tc;
                ToolResult.success := false;
                ToolResult.result := None;
                ToolResult.error := Some reason |}
       ∧ r.1 = [AwaitDecide (call_of (this w));
                AwaitSummarize (call_of (this w)); settled]
       ∧ ∃ rest,
           transcript r.2
           = Some (old ++ [user; failure reason (clock turn 1)] ++ rest)
           ∧ Forall (λ m, Message.role m = Role.assistant) rest)
  ∧ (∀ tool e,
       find (λ t, String.eqb (Tool.name t) (ToolCall.toolName tc))
         (agent_tools w) = Some tool →
       valid (validateParameters tool (ToolCall.parameters tc)) = true →
       toolOutcome turn = Rejected e →
       let reason :=
         match e with
         | ErrorObject message => message
         | NonError _ => "Unknown error"
         end in
       executeTool_settle tc (Rejected e)
       = {| ToolResult.toolName := ToolCall.toolName tc;
            ToolResult.success := false;
            ToolResult.result := None;
            ToolResult.error := Some reason |}
       ∧ r.1 = [AwaitDecide (call_of (this w)); AwaitExecute tc tool;
                AwaitSummarize (call_of (this w)); settled]
       ∧ ∃ rest,
           transcript r.2
           = Some (old ++ [user; failure reason (clock turn 2)] ++ rest)
           ∧ Forall (λ m, Message.role m = Role.assistant) rest).
Proof.
  intros Hidle Hold Hd Htc. cbn zeta.
  destruct (run_turn_spec turn userMessage w Hidle) as [Hs (Ht & _)].
  rewrite Hs, (Ht old Hold). unfold turn_steps, turn_messages.
  rewrite Hd, Htc.
  assert (Forall (λ m, Message.role m = Role.assistant)
            (reply_messages (summarizeReply turn) (clock turn 3))) as Hrest.
  { destruct (summarizeReply turn) as [final|e]; [|constructor].
    cbn. unfold text_messages.
    destruct (text final) as [[|c s]|]; repeat constructor. }
  split; [|split; [|split]].
  - destruct (dispatch (agent_tools w) tc) as [toolResult|tool].
    + by exists [AwaitDecide (call_of (this w)); AwaitSummarize (call_of (this w))].
    + by exists [AwaitDecide (call_of (this w)); AwaitExecute tc tool;
                 AwaitSummarize (call_of (this w))].
  - intros tool. apply validateEntries_valid_error.
  - intros tool reason Hfind Hv.
    rewrite (dispatch_invalid _ _ _ _ Hfind Hv). split; [done|]. split; [done|].
    by exists (reply_messages (summarizeReply turn) (clock turn 3)).
  - intros tool e Hfind Hv He.
    rewrite (dispatch_valid _ _ _ Hfind Hv), He. split; [done|]. split; [done|].
    by exists (reply_messages (summarizeReply turn) (clock turn 3)).
Qed.
End DispatchFacts.

(** ** One tool hop *)

Section HopFacts.
Context `{NumberToString}.



End HopFacts.

(** ** [reset], [getMessages], [getTools] *)

Section AccessorFacts.
Context `{NumberToString}.

Lemma initializeMessages_run now w :
  let w' := (initializeMessages now w).2 in
  transcript w' = Some [systemMsg (Agent.prompt (agent (this w))) now]
  ∧ isRunning (this w') = isRunning (this w)
  ∧ agent (this w') = agent (this w)
  ∧ toolArrays (heap w') = toolArrays (heap w).
Proof.
  cbn zeta. unfold initializeMessages. rewrite !bind_run.
  repeat split.
  unfold transcript, read_messages, set_messages, new_array, new_message, get_this.
  cbn [fst snd heap this messages messageArrays messageObjects].
  rewrite lookup_insert_eq. cbn. by rewrite lookup_insert_eq.
Qed.

Lemma new_AgentExecutor_run agent0 now h :
  let w := new_AgentExecutor agent0 now h in
  transcript w = Some [systemMsg (Agent.prompt agent0) now]
  ∧ isRunning (this w) = false
  ∧ agent (this w) = agent0.
Proof.
  cbn zeta. unfold new_AgentExecutor. rewrite !bind_run.
  set (w1 := (set_messages _ _).2).
  destruct (initializeMessages_run now w1) as (Ht & Hb & Ha & _).
  by rewrite Ht, Hb, Ha.
Qed.

Lemma run_turns_idle turns w :
  isRunning (this w) = false →
  isRunning (this (run_turns turns w)) = false
  ∧ agent (this (run_turns turns w)) = agent (this w).
Proof.
  revert w. induction turns as [|[turn userMessage] rest IH]; intros w Hidle.
  - done.
  - cbn [run_turns].
    destruct (run_turn_spec turn userMessage w Hidle)
      as [_ (_ & Ha & _ & _ & Hb)].
    destruct (IH _ Hb) as [-> ->]. done.
Qed.

(** C9: after any sequence of completed runs on a new executor, [reset]
    leaves a transcript of length 1 whose one entry is a system-role message
    with the agent's prompt as its content, with the flag down: what a new
    executor for the same agent, made at that time, starts with. *)
Theorem reset_restores_initial_state agent0 t0 h turns now h' :
  let w := (reset now (run_turns turns (new_AgentExecutor agent0 t0 h))).2 in
  transcript w = Some [{| Message.role := Role.system;
                          Message.content := Agent.prompt agent0;
                          Message.timestamp := now;
                          Message.toolName := None;
                          Message.toolResult := None |}]
  ∧ (∃ ms, transcript w = Some ms ∧ length ms = 1)
  ∧ isRunning (this w) = false
  ∧ agent (this w) = agent0
  ∧ transcript w = transcript (new_AgentExecutor agent0 now h')
  ∧ isRunning (this w) = isRunning (this (new_AgentExecutor agent0 now h'))
  ∧ agent (this w) = agent (this (new_AgentExecutor agent0 now h')).
Proof.
  cbn zeta.
  destruct (new_AgentExecutor_run agent0 t0 h) as (_ & Hb0 & Ha0).
  destruct (run_turns_idle turns _ Hb0) as [Hb Ha].
  destruct (initializeMessages_run now
              (run_turns turns (new_AgentExecutor agent0 t0 h)))
    as (Ht & Hb' & Ha' & _).
  destruct (new_AgentExecutor_run agent0 now h') as (Ht1 & Hb1 & Ha1).
  unfold reset. rewrite Ht, Hb', Ha', Ht1, Hb1, Ha1, Hb, Ha, Ha0.
  split; [done|]. split; [by eexists|done].
Qed.

(** C8 (as amended): [getMessages] returns a new array that holds the same
    Message objects as the transcript's array: the executor is unchanged,
    and whatever a caller then does to the returned array itself (adding,
    removing, replacing entries) leaves the transcript as it was.
    [getTools] returns the agent's own tool array. *)
Theorem getMessages_copies_getTools_aliases w old :
  transcript w = Some old →
  let r := getMessages w in
  r.1 ≠ messages (this r.2)
  ∧ messageArrays (heap r.2) !! r.1
    = messageArrays (heap w) !! messages (this w)
  ∧ read_messages (heap r.2) r.1 = Some old
  ∧ this r.2 = this w
  ∧ transcript r.2 = Some old
  ∧ (∀ xs, transcript (mutate (WriteMessageArray r.1 xs) r.2).2 = Some old)
  ∧ getTools w = (Agent.tools (agent (this w)), w).
Proof.
  unfold transcript, read_messages. intros Hold. cbn zeta.
  apply bind_Some in Hold as (xs & Harr & Hxs).
  unfold getMessages. rewrite !bind_run.
  unfold get_this, read_array, new_array, mutate.
  cbn [fst snd heap this messages messageArrays messageObjects].
  rewrite Harr. cbn [default].
  set (a := fresh (dom (messageArrays (heap w)))).
  assert (a ≠ messages (this w)) as Hne.
  { intros Heq. pose proof (fresh_lookup_None (messageArrays (heap w))) as Hf.
    fold a in Hf. rewrite Heq in Hf. congruence. }
  repeat split.
  - done.
  - by rewrite lookup_insert_eq.
  - rewrite lookup_insert_eq. done.
  - rewrite lookup_insert_ne, Harr by done. done.
  - intros ys. rewrite lookup_alter_ne, lookup_insert_ne, Harr by done. done.
Qed.
End AccessorFacts.

(** ** What the steps leave alone *)

Section FrameFacts.
Context `{NumberToString}.

Lemma steady_refl w : steady w w.
Proof. by repeat split. Qed.

Lemma steady_trans w w' w'' : steady w w' → steady w' w'' → steady w w''.
Proof.
  intros ([Ho Ha] & Hm & Ht) ([Ho' Ha'] & Hm' & Ht'). repeat split.
  - intros l m Hl. eauto.
  - intros a xs Hne Hxs. apply Ha'; [by rewrite Hm|by apply Ha].
  - by rewrite Hm'.
  - by rewrite Ht'.
Qed.

Lemma set_isRunning_steady b w : steady w (set_isRunning b w).2.
Proof. by repeat split. Qed.

Lemma push_message_steady m w : steady w (push_message m w).2.
Proof.
  unfold push_message. rewrite !bind_run. unfold get_this, push, new_message.
  cbn [fst snd heap this messages messageArrays messageObjects].
  repeat split; cbn [heap this messages messageArrays messageObjects].
  - intros l m' Hl. rewrite lookup_insert_ne; [done|].
    intros <-. by rewrite fresh_lookup_None in Hl.
  - intros a xs Hne Hxs. by rewrite lookup_alter_ne.
Qed.

Lemma push_text_steady response now w : steady w (push_text response now w).2.
Proof.
  unfold push_text. destruct (text response) as [[|c s]|];
    [apply steady_refl|apply push_message_steady|apply steady_refl].
Qed.

Lemma return_messages_steady w : steady w (return_messages w).2.
Proof. apply set_isRunning_steady. Qed.

Lemma throw_steady e w : steady w (throw e w).2.
Proof. apply set_isRunning_steady. Qed.

Lemma after_tool_steady toolResult now w :
  steady w (after_tool toolResult now w).2.
Proof. unfold after_tool. rewrite !bind_run. apply push_message_steady. Qed.

Lemma run_steady userMessage now w : steady w (run userMessage now w).2.
Proof.
  unfold run. rewrite bind_run. cbn [get_this fst snd].
  destruct (isRunning (this w)); [apply steady_refl|].
  rewrite !bind_run.
  exact (steady_trans _ _ _ (set_isRunning_steady true w)
           (push_message_steady _ _)).
Qed.

Lemma resume_decide_steady reply now w : steady w (resume_decide reply now w).2.
Proof.
  destruct reply as [response|e]; [|apply throw_steady].
  unfold resume_decide. destruct (toolCall response) as [tc|].
  - rewrite bind_run, executeTool_run. cbn [fst snd].
    destruct (dispatch (agent_tools w) tc);
      [apply after_tool_steady|apply steady_refl].
  - rewrite bind_run.
    exact (steady_trans _ _ _ (push_text_steady _ _ _)
             (return_messages_steady _)).
Qed.

Lemma resume_summarize_steady reply now w :
  steady w (resume_summarize reply now w).2.
Proof.
  destruct reply as [response|e]; [|apply throw_steady].
  unfold resume_summarize. rewrite bind_run.
  exact (steady_trans _ _ _ (push_text_steady _ _ _)
           (return_messages_steady _)).
Qed.

Lemma advance_steady turn st w : steady w (advance turn st w).2.
Proof.
  destruct st as [s|call|tc tool|call]; cbn [advance].
  - apply steady_refl.
  - apply resume_decide_steady.
  - apply after_tool_steady.
  - apply resume_summarize_steady.
Qed.

Lemma drive_steady fuel turn st w : steady w (drive fuel turn st w).2.
Proof.
  revert st w. induction fuel as [|fuel IH]; intros st w.
  - destruct st; apply steady_refl.
  - destruct st as [s|call|tc tool|call]; [apply steady_refl|..];
      rewrite drive_pending by done; cbn [snd];
      exact (steady_trans _ _ _ (advance_steady _ _ _) (IH _ _)).
Qed.

Lemma run_turn_steady turn userMessage w :
  steady w (run_turn turn userMessage w).2.
Proof.
  unfold run_turn. rewrite bind_run.
  exact (steady_trans _ _ _ (run_steady _ _ _) (drive_steady _ _ _ _)).
Qed.

Lemma run_turns_steady turns w : steady w (run_turns turns w).
Proof.
  revert w. induction turns as [|[turn userMessage] rest IH]; intros w.
  - apply steady_refl.
  - cbn [run_turns].
    exact (steady_trans _ _ _ (run_turn_steady _ _ _) (IH _)).
Qed.

Lemma getMessages_steady w : steady w (getMessages w).2.
Proof.
  unfold getMessages. rewrite !bind_run. unfold get_this, read_array, new_array.
  cbn [fst snd heap this messages messageArrays messageObjects].
  repeat split; cbn [heap this messages messageArrays messageObjects]; [done|].
  intros a xs _ Hxs. rewrite lookup_insert_ne; [done|].
  intros <-. by rewrite fresh_lookup_None in Hxs.
Qed.

(** An array none of whose cells changed reads the same. *)
Lemma read_messages_kept (h h' : Heap) a ms :
  (∀ l m, messageObjects h !! l = Some m → messageObjects h' !! l = Some m) →
  (∀ xs, messageArrays h !! a = Some xs → messageArrays h' !! a = Some xs) →
  read_messages h a = Some ms → read_messages h' a = Some ms.
Proof.
  intros Ho Ha. unfold read_messages. intros Hr.
  apply bind_Some in Hr as (xs & Hxs & Hms).
  rewrite (Ha _ Hxs). cbn. apply mapM_Some. apply mapM_Some in Hms.
  eapply Forall2_impl; [exact Hms|]. cbn. eauto.
Qed.

Lemma steady_read_messages w w' a ms :
  steady w w' → a ≠ messages (this w) →
  read_messages (heap w) a = Some ms → read_messages (heap w') a = Some ms.
Proof.
  intros ([Ho Ha] & _) Hne. apply read_messages_kept; [done|].
  intros xs. by apply Ha.
Qed.

(** [initializeMessages] changes no cell at all: it makes new ones. *)
Lemma initializeMessages_keeps now w :
  (∀ l m, messageObjects (heap w) !! l = Some m →
          messageObjects (heap (initializeMessages now w).2) !! l = Some m)
  ∧ (∀ a xs, messageArrays (heap w) !! a = Some xs →
             messageArrays (heap (initializeMessages now w).2) !! a = Some xs)
  ∧ (∀ xs, messageArrays (heap w) !! messages (this w) = Some xs →
           messages (this (initializeMessages now w).2) ≠ messages (this w)).
Proof.
  unfold initializeMessages. rewrite !bind_run.
  unfold get_this, set_messages, new_array, new_message.
  cbn [fst snd heap this messages messageArrays messageObjects].
  repeat split.
  - intros l m Hl. rewrite lookup_insert_ne; [done|].
    intros <-. by rewrite fresh_lookup_None in Hl.
  - intros a xs Hxs. rewrite lookup_insert_ne; [done|].
    intros <-. by rewrite fresh_lookup_None in Hxs.
  - intros xs Hxs Heq. rewrite <- Heq in Hxs.
    by rewrite fresh_lookup_None in Hxs.
Qed.
End FrameFacts.

(** ** [reset] while a run is suspended *)

Section ResetFacts.
Context `{NumberToString}.

(** A suspended run, resumed until it settles, appends what it has yet to
    append. *)
Lemma drive_remaining turn st w :
  pending st = true →
  appends w (remaining_messages (agent_tools w) turn st) false
    (drive 3 turn st w).2.
Proof.
  intros Hp. destruct st as [s|call|tc tool|call]; [done|..];
    cbn [remaining_messages].
  - rewrite drive_pending by done. cbn [advance fst snd].
    pose proof (resume_decide_run (decideReply turn) (clock turn 1) w) as Hd.
    cbn zeta in Hd.
    destruct (decideReply turn) as [response|e].
    + destruct (toolCall response) as [tc|].
      * destruct (dispatch (agent_tools w) tc) as [toolResult|tool].
        -- destruct Hd as [-> Hw1].
           destruct (drive_summarize 1 turn (call_of (this w))
                       (resume_decide (Fulfilled response) (clock turn 1) w).2)
             as [_ Hw2].
           exact (appends_trans _ _ _ _ _ _ _ Hw1 Hw2).
        -- rewrite Hd. cbn [fst snd]. apply (drive_execute 0).
      * destruct Hd as [-> Hw1]. by rewrite drive_settled.
    + destruct Hd as [-> Hw1]. by rewrite drive_settled.
  - apply (drive_execute 1).
  - apply (drive_summarize 2).
Qed.

(** C7 (as amended): [reset] has no guard. Whatever the flag is, it is
    performed, it does not fail, it leaves the flag and the agent as they
    are, and the transcript is then one new system-role message holding
    the agent's prompt. A run that was suspended (the flag is up) stays in
    flight and, resumed until it settles, appends to the new transcript
    what it would have appended to the old one, which it leaves as it
    was: after a tool body, that is the tool-role message at least. *)
Theorem reset_unguarded now w :
  let w' := (reset now w).2 in
  let restart :=
    [{| Message.role := Role.system;
        Message.content := Agent.prompt (agent (this w));
        Message.timestamp := now;
        Message.toolName := None;
        Message.toolResult := None |}] in
  transcript w' = Some restart
  ∧ isRunning (this w') = isRunning (this w)
  ∧ agent (this w') = agent (this w)
  ∧ toolArrays (heap w') = toolArrays (heap w)
  ∧ ∀ st, in_flight st w → pending st = true →
      isRunning (this w) = true
      ∧ in_flight st w'
      ∧ ∀ turn, ∃ new,
          transcript (drive 3 turn st w').2 = Some (restart ++ new)
          ∧ isRunning (this (drive 3 turn st w').2) = false
          ∧ (∀ old, transcript w = Some old →
               transcript (drive 3 turn st w).2 = Some (old ++ new)
               ∧ read_messages (heap (drive 3 turn st w').2)
                   (messages (this w)) = Some old)
          ∧ (∀ tc tool, st = AwaitExecute tc tool →
               ∃ rest,
                 new = {| Message.role := Role.tool;
                          Message.content :=
                            match toolOutcome turn with
                            | Fulfilled result => result
                            | Rejected (ErrorObject message) =>
                                "Error: " +:+ message
                            | Rejected (NonError _) => "Error: Unknown error"
                            end;
                          Message.timestamp := clock turn 2;
                          Message.toolName := Some (ToolCall.toolName tc);
                          Message.toolResult :=
                            match toolOutcome turn with
                            | Fulfilled result => Some result
                            | Rejected _ => None
                            end |} :: rest).
Proof.
  cbn zeta. destruct (initializeMessages_run now w) as (Ht & Hb & Ha & Hts).
  unfold reset.
  split; [done|]. split; [done|]. split; [done|]. split; [done|].
  intros st Hin Hp.
  split; [by rewrite (in_flight_flag _ _ Hin)|].
  split; [exact (in_flight_call st w (CallReset now) Hin Hp)|].
  intros turn.
  set (w' := (initializeMessages now w).2) in *.
  assert (agent_tools w' = agent_tools w) as Htools
    by (unfold agent_tools; by rewrite Ha, Hts).
  exists (remaining_messages (agent_tools w) turn st).
  pose proof (drive_remaining turn st w' Hp) as (Ht' & _ & _ & _ & Hb').
  rewrite Htools in Ht'.
  split; [exact (Ht' _ Ht)|]. split; [exact Hb'|]. split.
  - intros old Hold.
    pose proof (drive_remaining turn st w Hp) as (Ht0 & _).
    split; [exact (Ht0 _ Hold)|].
    destruct (initializeMessages_keeps now w) as (Ho & Harr & Hne).
    assert (∃ xs, messageArrays (heap w) !! messages (this w) = Some xs)
      as [xs Hxs].
    { unfold transcript, read_messages in Hold.
      apply bind_Some in Hold as (xs & Hxs & _). by exists xs. }
    eapply steady_read_messages;
      [apply drive_steady|apply not_eq_sym, (Hne xs Hxs)|].
    revert Hold. apply read_messages_kept; [done|]. intros ys. apply Harr.
  - intros tc tool ->. cbn [remaining_messages]. eexists.
    unfold toolMsg, executeTool_settle.
    by destruct (toolOutcome turn) as [result|[message|v]].
Qed.
End ResetFacts.

(** ** More on a turn *)

Section TurnExtras.
Context `{NumberToString}.

Lemma reply_messages_assistant reply now :
  Forall (λ m, Message.role m = Role.assistant) (reply_messages reply now).
Proof.
  destruct reply as [final|e]; [|constructor].
  cbn. unfold text_messages.
  destruct (text final) as [[|c s]|]; repeat constructor.
Qed.

(** X1: a tool call that names a tool of the agent, with parameters that
    pass validation, awaits the tool body once; when the body returns
    [result], the run appends a tool-role message whose content and
    [toolResult] are [result] and whose [toolName] is the tool's name, and
    goes on to the summarize call. *)
Theorem tool_dispatch_round_trip turn userMessage w old response tc tool result :
  isRunning (this w) = false →
  transcript w = Some old →
  decideReply turn = Fulfilled response →
  toolCall response = Some tc →
  find (λ t, String.eqb (Tool.name t) (ToolCall.toolName tc)) (agent_tools w)
  = Some tool →
  valid (validateParameters tool (ToolCall.parameters tc)) = true →
  toolOutcome turn = Fulfilled result →
  Tool.name tool = ToolCall.toolName tc
  ∧ (run_turn turn userMessage w).1
    = [AwaitDecide (call_of (this w)); AwaitExecute tc tool;
       AwaitSummarize (call_of (this w));
       Settled (match summarizeReply turn with
                | Fulfilled _ => Fulfilled (messages (this w))
                | Rejected e => Rejected e
                end)]
  ∧ ∃ rest,
      transcript (run_turn turn userMessage w).2
      = Some (old ++ [userMsg userMessage (clock turn 0);
                      {| Message.role := Role.tool;
                         Message.content := result;
                         Message.timestamp := clock turn 2;
                         Message.toolName := Some (Tool.name tool);
                         Message.toolResult := Some result |}] ++ rest)
      ∧ Forall (λ m, Message.role m = Role.assistant) rest.
Proof.
  intros Hidle Hold Hd Htc Hfind Hv Ho.
  assert (Tool.name tool = ToolCall.toolName tc) as Hname.
  { apply find_some in Hfind as [_ Heq]. by apply String.eqb_eq in Heq. }
  split; [done|].
  destruct (run_turn_spec turn userMessage w Hidle) as [Hs (Ht & _)].
  rewrite Hs, (Ht old Hold). unfold turn_steps, turn_messages.
  rewrite Hd, Htc, (dispatch_valid _ _ _ Hfind Hv), Ho, Hname.
  split; [done|].
  exists (reply_messages (summarizeReply turn) (clock turn 3)).
  split; [done|apply reply_messages_assistant].
Qed.

(** X2: a rejected oracle call rejects [run] with the same reason, puts the
    flag down and rolls nothing back: after a rejected decide call the user
    message stays in the transcript, after a rejected summarize call the user
    message and the tool message stay. *)
Theorem oracle_failure_keeps_partial_transcript turn userMessage w old e :
  isRunning (this w) = false →
  transcript w = Some old →
  let r := run_turn turn userMessage w in
  (decideReply turn = Rejected e →
   r.1 = [AwaitDecide (call_of (this w)); Settled (Rejected e)]
   ∧ transcript r.2 = Some (old ++ [userMsg userMessage (clock turn 0)])
   ∧ isRunning (this r.2) = false)
  ∧ (∀ response tc,
       decideReply turn = Fulfilled response →
       toolCall response = Some tc →
       summarizeReply turn = Rejected e →
       (∃ steps, r.1 = steps ++ [Settled (Rejected e)])
       ∧ (∃ m, Message.role m = Role.tool
             ∧ transcript r.2
               = Some (old ++ [userMsg userMessage (clock turn 0); m]))
       ∧ isRunning (this r.2) = false).
Proof.
  intros Hidle Hold. cbn zeta.
  destruct (run_turn_spec turn userMessage w Hidle)
    as [Hs (Ht & _ & _ & _ & Hb)].
  rewrite Hs, (Ht old Hold), Hb. unfold turn_steps, turn_messages. split.
  - intros ->. done.
  - intros response tc -> -> ->. cbn [reply_messages settlement_of].
    destruct (dispatch (agent_tools w) tc) as [toolResult|tool].
    + split; [by exists [AwaitDecide (call_of (this w));
                         AwaitSummarize (call_of (this w))]|].
      split; [|done]. by exists (toolMsg toolResult (clock turn 1)).
    + split; [by exists [AwaitDecide (call_of (this w)); AwaitExecute tc tool;
                         AwaitSummarize (call_of (this w))]|].
      split; [|done].
      by exists (toolMsg (executeTool_settle tc (toolOutcome turn)) (clock turn 2)).
Qed.

(** X3: the tool is looked up by name and the first match wins: the tools
    that come after the first one with the requested name, same-named ones
    included, play no part. *)
Theorem dispatch_first_match_wins pre tool post post' tc :
  Forall (λ t, Tool.name t ≠ ToolCall.toolName tc) pre →
  Tool.name tool = ToolCall.toolName tc →
  dispatch (pre ++ tool :: post) tc = dispatch (pre ++ tool :: post') tc
  ∧ (valid (validateParameters tool (ToolCall.parameters tc)) = true →
     dispatch (pre ++ tool :: post) tc = inr tool).
Proof.
  intros Hpre Hname.
  assert (∀ rest,
            find (λ t, String.eqb (Tool.name t) (ToolCall.toolName tc))
              (pre ++ tool :: rest) = Some tool) as Hfind.
  { intros rest. induction Hpre as [|t pre Ht _ IH]; cbn.
    - apply String.eqb_eq in Hname. by rewrite Hname.
    - apply String.eqb_neq in Ht. by rewrite Ht. }
  split.
  - unfold dispatch. by rewrite !Hfind.
  - intros Hv. exact (dispatch_valid _ _ _ (Hfind post) Hv).
Qed.

Lemma turn_messages_shape tools turn userMessage :
  ∃ rest,
    turn_messages tools turn userMessage
    = userMsg userMessage (clock turn 0) :: rest
    ∧ (length rest ≤ 2)%nat
    ∧ Forall (λ m, Message.role m = Role.tool ∨ Message.role m = Role.assistant)
        rest.
Proof.
  unfold turn_messages. eexists. split; [reflexivity|].
  assert (∀ response now,
            (length (text_messages response now) ≤ 1)%nat
            ∧ Forall (λ m, Message.role m = Role.tool
                           ∨ Message.role m = Role.assistant)
                (text_messages response now)) as Htext.
  { intros response now. unfold text_messages.
    destruct (text response) as [[|c s]|]; cbn; split;
      repeat constructor; lia. }
  destruct (decideReply turn) as [response|e]; [|split; [cbn; lia|constructor]].
  destruct (toolCall response) as [tc|].
  - assert ((length (reply_messages (summarizeReply turn) (clock turn 3)) ≤ 1)%nat
            ∧ Forall (λ m, Message.role m = Role.tool
                           ∨ Message.role m = Role.assistant)
                (reply_messages (summarizeReply turn) (clock turn 3)))
      as [Hlen Hrole].
    { destruct (summarizeReply turn) as [final|e]; [apply Htext|].
      split; [cbn; lia|constructor]. }
    destruct (dispatch tools tc); cbn; (split; [lia|]);
      (constructor; [by left|done]).
  - destruct (Htext response (clock turn 1)) as [Hlen Hrole].
    split; [lia|done].
Qed.

(** X6: across any sequence of completed turns the transcript only grows:
    what was there stays, in place, as a prefix, and what is added is one
    block of messages per turn, in the order of the turns. The block of a
    turn starts with the user-role message holding that turn's input and
    has at most two more messages, of the tool or the assistant role; so
    nothing added has the system role. The executor is idle again at the
    end. *)
Theorem transcript_grows_by_turns turns w old :
  isRunning (this w) = false →
  transcript w = Some old →
  ∃ blocks,
    transcript (run_turns turns w) = Some (old ++ concat blocks)
    ∧ Forall2
        (λ (t : Turn * string) block,
           ∃ rest,
             block = {| Message.role := Role.user;
                        Message.content := t.2;
                        Message.timestamp := clock t.1 0;
                        Message.toolName := None;
                        Message.toolResult := None |} :: rest
             ∧ (length rest ≤ 2)%nat
             ∧ Forall (λ m, Message.role m = Role.tool
                            ∨ Message.role m = Role.assistant) rest)
        turns blocks
    ∧ (length turns ≤ length (concat blocks) ≤ 3 * length turns)%nat
    ∧ Forall (λ m, Message.role m ≠ Role.system) (concat blocks)
    ∧ isRunning (this (run_turns turns w)) = false.
Proof.
  revert w old. induction turns as [|[turn userMessage] rest IH];
    intros w old Hidle Hold.
  - exists []. rewrite app_nil_r. cbn.
    repeat split; [done|constructor|lia|lia|constructor|done].
  - cbn [run_turns].
    destruct (run_turn_spec turn userMessage w Hidle)
      as [_ (Ht & _ & _ & _ & Hb)].
    destruct (turn_messages_shape (agent_tools w) turn userMessage)
      as (more & Hmsgs & Hlen & Hroles).
    destruct (IH _ _ Hb (Ht old Hold))
      as (blocks & Hnew & Hblocks & Hbounds & Hsys & Hidle').
    exists (turn_messages (agent_tools w) turn userMessage :: blocks).
    cbn [concat]. rewrite Hnew, app_assoc. split; [done|]. split.
    { constructor; [|done]. exists more. by rewrite Hmsgs. }
    rewrite length_app, Hmsgs. cbn [length]. split; [lia|]. split; [|done].
    apply Forall_app. split; [|done].
    constructor; [done|].
    eapply Forall_impl; [exact Hroles|]. cbn. intros m [-> | ->]; done.
Qed.
End TurnExtras.

(** ** References handed out *)

Section AliasExtras.
Context `{NumberToString}.

Lemma turn_steps_fulfilled_value ex tools turn steps a :
  turn_steps ex tools turn = steps ++ [Settled (Fulfilled a)] →
  a = messages ex.
Proof.
  unfold turn_steps. intros Hsteps.
  destruct (decideReply turn) as [response|e].
  - destruct (toolCall response) as [tc|].
    + rewrite app_comm_cons in Hsteps.
      destruct (summarizeReply turn) as [final|e];
        destruct (dispatch tools tc); cbn in Hsteps.
      * by apply (app_inj_tail [_; _]) in Hsteps as [_ [=]].
      * by apply (app_inj_tail [_; _; _]) in Hsteps as [_ [=]].
      * by apply (app_inj_tail [_; _]) in Hsteps as [_ [=]].
      * by apply (app_inj_tail [_; _; _]) in Hsteps as [_ [=]].
    + by apply (app_inj_tail [_]) in Hsteps as [_ [=]].
  - by apply (app_inj_tail [_]) in Hsteps as [_ [=]].
Qed.

Lemma getMessages_run w old :
  transcript w = Some old →
  (getMessages w).1 ≠ messages (this (getMessages w).2)
  ∧ read_messages (heap (getMessages w).2) (getMessages w).1 = Some old
  ∧ transcript (getMessages w).2 = Some old
  ∧ this (getMessages w).2 = this w
  ∧ toolArrays (heap (getMessages w).2) = toolArrays (heap w).
Proof.
  unfold transcript, read_messages. intros Hold.
  apply bind_Some in Hold as (xs & Harr & Hxs).
  unfold getMessages. rewrite !bind_run.
  unfold get_this, read_array, new_array.
  cbn [fst snd heap this messages messageArrays messageObjects toolArrays].
  rewrite Harr. cbn [default].
  assert (fresh (dom (messageArrays (heap w))) ≠ messages (this w)) as Hne.
  { intros Heq. pose proof (fresh_lookup_None (messageArrays (heap w))) as Hf.
    rewrite Heq in Hf. congruence. }
  repeat split; [done| |].
  - by rewrite lookup_insert_eq.
  - by rewrite lookup_insert_ne, Harr.
Qed.

(** X4: the array [run] fulfils with is the transcript's own array, not a
    copy: it is the same reference on every run, and what a caller got from
    one run holds, after the next run, the messages of that run too. *)
Theorem run_result_is_live turn1 userMessage1 turn2 userMessage2 w old steps1 a :
  isRunning (this w) = false →
  transcript w = Some old →
  (run_turn turn1 userMessage1 w).1 = steps1 ++ [Settled (Fulfilled a)] →
  let w1 := (run_turn turn1 userMessage1 w).2 in
  let w2 := (run_turn turn2 userMessage2 w1).2 in
  a = messages (this w)
  ∧ (∃ new1 new2,
       read_messages (heap w1) a = Some (old ++ new1)
       ∧ read_messages (heap w2) a
         = Some (old ++ new1 ++ userMsg userMessage2 (clock turn2 0) :: new2))
  ∧ (∀ steps2 a2,
       (run_turn turn2 userMessage2 w1).1 = steps2 ++ [Settled (Fulfilled a2)] →
       a2 = a).
Proof.
  intros Hidle Hold Hsteps. cbn zeta.
  destruct (run_turn_spec turn1 userMessage1 w Hidle)
    as [Hs (Ht & _ & Hm & _ & Hb)].
  rewrite Hs in Hsteps. apply turn_steps_fulfilled_value in Hsteps as ->.
  set (w1 := (run_turn turn1 userMessage1 w).2) in *.
  destruct (run_turn_spec turn2 userMessage2 w1 Hb)
    as [Hs2 (Ht2 & _ & Hm2 & _)].
  split; [done|]. split.
  - destruct (turn_messages_shape (agent_tools w1) turn2 userMessage2)
      as (new2 & Hnew2 & _).
    exists (turn_messages (agent_tools w) turn1 userMessage1), new2.
    specialize (Ht old Hold). pose proof (Ht2 _ Ht) as Ht2'.
    unfold transcript in Ht, Ht2'. rewrite Hm in Ht. rewrite Hm2, Hm in Ht2'.
    split; [done|]. by rewrite Ht2', Hnew2, <- app_assoc.
  - intros steps2 a2 Hsteps2. rewrite Hs2 in Hsteps2.
    apply turn_steps_fulfilled_value in Hsteps2 as ->. done.
Qed.

(** X5: [reset] puts the transcript in a new array and leaves the old one as
    it is: a reference to the old array (from an earlier [run]) keeps reading
    the old conversation, whatever runs follow. *)
Theorem reset_leaves_old_references_stale w old now turns :
  transcript w = Some old →
  let a := messages (this w) in
  let w' := (reset now w).2 in
  messages (this w') ≠ a
  ∧ read_messages (heap w') a = Some old
  ∧ read_messages (heap (run_turns turns w')) a = Some old.
Proof.
  intros Hold. cbn zeta. unfold reset.
  destruct (initializeMessages_keeps now w) as (Ho & Ha & Hne).
  assert (∃ xs, messageArrays (heap w) !! messages (this w) = Some xs)
    as [xs Hxs].
  { unfold transcript, read_messages in Hold.
    apply bind_Some in Hold as (xs & Hxs & _). by exists xs. }
  specialize (Hne xs Hxs).
  assert (read_messages (heap (initializeMessages now w).2) (messages (this w))
          = Some old) as Hkept.
  { revert Hold. apply read_messages_kept; [done|]. intros ys. apply Ha. }
  split; [done|]. split; [done|].
  eapply steady_read_messages; [apply run_turns_steady|by apply not_eq_sym|done].
Qed.

(** X7: a run writes to no Message object that already exists and to no
    Message array but the transcript's, and it leaves the tool arrays alone.
    So the array [getMessages] returned keeps reading the transcript as it
    was when the call was made, whatever runs follow. *)
Theorem runs_leave_snapshots_alone turns w old :
  transcript w = Some old →
  let snap := getMessages w in
  let w' := run_turns turns snap.2 in
  read_messages (heap snap.2) snap.1 = Some old
  ∧ read_messages (heap w') snap.1 = Some old
  ∧ (∀ l m, messageObjects (heap w) !! l = Some m →
            messageObjects (heap w') !! l = Some m)
  ∧ (∀ a xs, a ≠ messages (this w) →
             messageArrays (heap w) !! a = Some xs →
             messageArrays (heap w') !! a = Some xs)
  ∧ toolArrays (heap w') = toolArrays (heap w).
Proof.
  intros Hold. cbn zeta.
  destruct (getMessages_run w old Hold) as (Hne & Hsnap & _ & _ & _).
  pose proof (steady_trans _ _ _ (getMessages_steady w)
                (run_turns_steady turns (getMessages w).2))
    as ([Ho Ha] & _ & Hts).
  split; [done|]. split; [|done].
  eapply steady_read_messages; [apply run_turns_steady|done|done].
Qed.

Lemma resume_decide_same reply now w w' old :
  this w' = this w → toolArrays (heap w') = toolArrays (heap w) →
  transcript w = Some old → transcript w' = Some old →
  (resume_decide reply now w').1 = (resume_decide reply now w).1
  ∧ transcript (resume_decide reply now w').2
    = transcript (resume_decide reply now w).2.
Proof.
  intros Hthis Hts Hold Hold'.
  assert (agent_tools w' = agent_tools w) as Htools
    by (unfold agent_tools; by rewrite Hthis, Hts).
  pose proof (resume_decide_run reply now w) as Hd.
  pose proof (resume_decide_run reply now w') as Hd'.
  cbn zeta in Hd, Hd'. rewrite Htools, Hthis in Hd'.
  destruct reply as [response|e].
  - destruct (toolCall response) as [tc|].
    + destruct (dispatch (agent_tools w) tc) as [toolResult|tool].
      * destruct Hd as [-> (Ht & _)], Hd' as [-> (Ht' & _)].
        by rewrite (Ht _ Hold), (Ht' _ Hold').
      * rewrite Hd, Hd'. cbn. by rewrite Hold, Hold'.
    + destruct Hd as [-> (Ht & _)], Hd' as [-> (Ht' & _)].
      by rewrite (Ht _ Hold), (Ht' _ Hold').
  - destruct Hd as [-> (Ht & _)], Hd' as [-> (Ht' & _)].
    by rewrite (Ht _ Hold), (Ht' _ Hold').
Qed.

(** X8: [getMessages] called while a run is suspended at its first await
    reads the transcript so far, the new user message included, and does not
    disturb the run: resumed after the call, the run takes the same step and
    leaves the same transcript as it would have without it. *)
Theorem getMessages_during_run w old userMessage now reply now' :
  isRunning (this w) = false →
  transcript w = Some old →
  let w1 := (run userMessage now w).2 in
  let snap := getMessages w1 in
  read_messages (heap snap.2) snap.1 = Some (old ++ [userMsg userMessage now])
  ∧ (resume_decide reply now' snap.2).1 = (resume_decide reply now' w1).1
  ∧ transcript (resume_decide reply now' snap.2).2
    = transcript (resume_decide reply now' w1).2.
Proof.
  intros Hidle Hold. cbn zeta.
  destruct (run_idle userMessage now w Hidle) as [_ (Ht & _)].
  specialize (Ht old Hold).
  destruct (getMessages_run _ _ Ht) as (_ & Hsnap & Ht' & Hthis & Hts).
  split; [done|]. by eapply resume_decide_same.
Qed.

Lemma new_array_keeps xs w :
  (∀ l m, messageObjects (heap w) !! l = Some m →
          messageObjects (heap (new_array xs w).2) !! l = Some m)
  ∧ (∀ a ys, messageArrays (heap w) !! a = Some ys →
             messageArrays (heap (new_array xs w).2) !! a = Some ys)
  ∧ toolArrays (heap (new_array xs w).2) = toolArrays (heap w).
Proof.
  unfold new_array. cbn [snd heap messageObjects messageArrays toolArrays].
  repeat split; [done|].
  intros a ys Hys. rewrite lookup_insert_ne; [done|].
  intros <-. by rewrite fresh_lookup_None in Hys.
Qed.

(** X9: executors do not share state: making a new executor and running it
    changes no Message array and no Message object that was on the heap
    before (another executor's transcript, say), and no tool array. *)
Theorem executors_are_independent agent0 now h a ms turns :
  read_messages h a = Some ms →
  let w := new_AgentExecutor agent0 now h in
  messages (this w) ≠ a
  ∧ read_messages (heap w) a = Some ms
  ∧ read_messages (heap (run_turns turns w)) a = Some ms
  ∧ toolArrays (heap (run_turns turns w)) = toolArrays h.
Proof.
  intros Hms. cbn zeta. unfold new_AgentExecutor. rewrite !bind_run.
  set (w0 := {| heap := h; this := _ |}).
  destruct (new_array_keeps [] w0) as (Ho1 & Ha1 & Hts1).
  set (w1 := (set_messages (new_array [] w0).1 (new_array [] w0).2).2).
  destruct (initializeMessages_keeps now w1) as (Ho2 & Ha2 & Hne).
  destruct (initializeMessages_run now w1) as (_ & _ & _ & Hts2).
  assert (∃ xs, messageArrays h !! a = Some xs) as [xs Hxs].
  { unfold read_messages in Hms. apply bind_Some in Hms as (xs & Hxs & _).
    by exists xs. }
  assert (messages (this (initializeMessages now w1).2) ≠ a) as Hfresh.
  { unfold initializeMessages. rewrite !bind_run.
    unfold get_this, set_messages, new_array, new_message.
    cbn [fst snd heap this messages messageArrays messageObjects].
    intros Heq. pose proof (Ha1 a xs Hxs) as Hin. rewrite <- Heq in Hin.
    by rewrite fresh_lookup_None in Hin. }
  assert (read_messages (heap (initializeMessages now w1).2) a = Some ms)
    as Hkept.
  { revert Hms. apply read_messages_kept.
    - intros l m Hl. apply Ho2, Ho1. exact Hl.
    - intros ys Hys. apply Ha2, Ha1. exact Hys. }
  split; [done|]. split; [done|]. split.
  - eapply steady_read_messages; [apply run_turns_steady|by apply not_eq_sym|done].
  - destruct (run_turns_steady turns (initializeMessages now w1).2)
      as (_ & _ & ->).
    by rewrite Hts2.
Qed.
End AliasExtras.

(** ** More on the validator *)

Section ValidatorExtras.
Context `{NumberToString}.

Lemma SFcompare_refl f : f ≠ S754_nan → SFcompare f f = Some Eq.
Proof.
  destruct f as [s|s| |s m e]; cbn; try done.
  - by destruct s.
  - intros _. rewrite Z.compare_refl, Pos.compare_cont_refl. by destruct s.
Qed.

Lemma is_nan_Prim2SF x : PrimFloat.is_nan x = true → Prim2SF x = S754_nan.
Proof.
  unfold PrimFloat.is_nan. rewrite FloatAxioms.eqb_spec. unfold SFeqb. intros Hx.
  destruct (Prim2SF x) as [s|s| |s m e] eqn:Hf; [..|done|];
    by rewrite SFcompare_refl in Hx.
Qed.

Lemma ltb_irrefl x : PrimFloat.ltb x x = false.
Proof.
  rewrite FloatAxioms.ltb_spec. unfold SFltb.
  destruct (Prim2SF x) as [s|s| |s m e] eqn:Hf; [..|done|];
    by rewrite SFcompare_refl.
Qed.

Lemma ltb_nan_l x y : PrimFloat.is_nan x = true → PrimFloat.ltb x y = false.
Proof. intros Hx. by rewrite FloatAxioms.ltb_spec, (is_nan_Prim2SF _ Hx). Qed.

Lemma ltb_nan_r x y : PrimFloat.is_nan y = true → PrimFloat.ltb x y = false.
Proof.
  intros Hy. rewrite FloatAxioms.ltb_spec, (is_nan_Prim2SF _ Hy). unfold SFltb.
  by destruct (Prim2SF x).
Qed.

(** The order of the doubles that are not NaN, through a key: the sign class
    first (minus infinity, negative, zero, positive, plus infinity), then
    exponent and mantissa. *)
Lemma SFcompare_key f g :
  let key h :=
    match h with
    | S754_infinity true => (-2, 0, 0)%Z
    | S754_finite true m e => (-1, - e, - Z.pos m)%Z
    | S754_zero _ | S754_nan => (0, 0, 0)%Z
    | S754_finite false m e => (1, e, Z.pos m)%Z
    | S754_infinity false => (2, 0, 0)%Z
    end in
  let lt (a b : Z * Z * Z) :=
    (a.1.1 < b.1.1 ∨ (a.1.1 = b.1.1
       ∧ (a.1.2 < b.1.2 ∨ (a.1.2 = b.1.2 ∧ a.2 < b.2))))%Z in
  f ≠ S754_nan → g ≠ S754_nan →
  match SFcompare f g with
  | Some Lt => lt (key f) (key g)
  | Some Eq => key f = key g
  | Some Gt => lt (key g) (key f)
  | None => False
  end.
Proof.
  cbn zeta. intros Hf Hg.
  destruct f as [s1|s1| |s1 m1 e1], g as [s2|s2| |s2 m2 e2]; try done;
    try destruct s1; try destruct s2; cbn; try lia; try done;
    change (Pos.compare_cont Eq m1 m2) with (m1 ?= m2)%positive;
    destruct (Z.compare_spec e1 e2), (Pos.compare_spec m1 m2); subst; cbn;
      first [reflexivity|lia].
Qed.

Lemma not_nan_Prim2SF x : PrimFloat.is_nan x = false → Prim2SF x ≠ S754_nan.
Proof.
  unfold PrimFloat.is_nan. rewrite FloatAxioms.eqb_spec. intros Hx Hnan.
  by rewrite Hnan in Hx.
Qed.

(** [≤] excludes [>]. *)
Lemma leb_not_ltb x y : PrimFloat.leb x y = true → PrimFloat.ltb y x = false.
Proof.
  rewrite FloatAxioms.leb_spec, FloatAxioms.ltb_spec. unfold SFleb, SFltb.
  intros Hle.
  assert (Prim2SF x ≠ S754_nan ∧ Prim2SF y ≠ S754_nan) as [Hx Hy].
  { split; intros Hnan; rewrite Hnan in Hle; [done|].
    by destruct (Prim2SF x). }
  pose proof (SFcompare_key _ _ Hx Hy) as Hxy.
  pose proof (SFcompare_key _ _ Hy Hx) as Hyx. cbn zeta in Hxy, Hyx.
  destruct (SFcompare (Prim2SF y) (Prim2SF x)) as [[]|]; try done.
  destruct (SFcompare (Prim2SF x) (Prim2SF y)) as [[]|]; try done.
  - rewrite Hxy in Hyx. lia.
  - lia.
Qed.

Lemma leb_refl x : PrimFloat.is_nan x = false → PrimFloat.leb x x = true.
Proof.
  intros Hx. rewrite FloatAxioms.leb_spec. unfold SFleb.
  by rewrite (SFcompare_refl _ (not_nan_Prim2SF _ Hx)).
Qed.

(** Between [mx] and a larger [mn] there is no number. *)
Lemma ltb_empty_range x mn mx :
  PrimFloat.ltb mx mn = true → PrimFloat.is_nan x = false →
  PrimFloat.ltb x mn = true ∨ PrimFloat.ltb mx x = true.
Proof.
  rewrite !FloatAxioms.ltb_spec. unfold SFltb. intros Hlt Hx.
  apply not_nan_Prim2SF in Hx.
  assert (Prim2SF mx ≠ S754_nan ∧ Prim2SF mn ≠ S754_nan) as [Hmx Hmn].
  { split; intros Hnan; rewrite Hnan in Hlt; [done|].
    by destruct (Prim2SF mx). }
  pose proof (SFcompare_key _ _ Hmx Hmn) as H1.
  pose proof (SFcompare_key _ _ Hx Hmn) as H2.
  pose proof (SFcompare_key _ _ Hmx Hx) as H3. cbn zeta in H1, H2, H3.
  destruct (SFcompare (Prim2SF mx) (Prim2SF mn)) as [[]|]; try done.
  destruct (SFcompare (Prim2SF x) (Prim2SF mn)) as [[]|]; try done;
    [|by left|];
    (destruct (SFcompare (Prim2SF mx) (Prim2SF x)) as [[]|];
       [|by right| |done]; exfalso);
    try rewrite H2 in *; try rewrite H3 in *; lia.
Qed.

Lemma validate_number name description n d r df mn mx x :
  validateParameters
    {| Tool.name := name; Tool.description := description;
       Tool.parameters := [(n, NumberParam d r df mn mx)] |}
    {[ n := VNumber x ]}
  = default {| valid := true; error := None |}
      (checkParameter n (NumberParam d r df mn mx) (Some (VNumber x))).
Proof.
  unfold validateParameters. cbn [Tool.parameters].
  rewrite Object_entries_singleton. cbn [validateEntries].
  rewrite (read_property_own _ _ (VNumber x)) by apply lookup_singleton_eq.
  by destruct (checkParameter _ _ _).
Qed.

(** X10: the bounds of a number parameter are inclusive. A number that is
    at least [min] and at most [max] (each where it is declared) passes: so
    does a number equal to [min], or to [max], when [min] is at most [max].
    NaN passes whatever the bounds are. A number below [min] is rejected
    with the [>= min] reason, one above [max] (and not below [min]) with the
    [<= max] reason. When [max] is below [min], every number but NaN is
    rejected. *)
Theorem number_bounds_edges name description n d r df mn mx x :
  let tool := {| Tool.name := name; Tool.description := description;
                 Tool.parameters := [(n, NumberParam d r df mn mx)] |} in
  let result := validateParameters tool {[ n := VNumber x ]} in
  let ok := {| valid := true; error := None |} in
  ((∀ m, mn = Some m → PrimFloat.leb m x = true) →
   (∀ M, mx = Some M → PrimFloat.leb x M = true) →
   result = ok)
  ∧ (mn = Some x → PrimFloat.is_nan x = false →
     (∀ M, mx = Some M → PrimFloat.leb x M = true) →
     result = ok)
  ∧ (mx = Some x → PrimFloat.is_nan x = false →
     (∀ m, mn = Some m → PrimFloat.leb m x = true) →
     result = ok)
  ∧ (PrimFloat.is_nan x = true → result = ok)
  ∧ (∀ m, mn = Some m → PrimFloat.ltb x m = true →
       result = {| valid := false;
                   error := Some ("Parameter " +:+ n +:+ " must be >= "
                                  +:+ number_toString m) |})
  ∧ (∀ M, mx = Some M → PrimFloat.ltb M x = true →
       (∀ m, mn = Some m → PrimFloat.ltb x m = false) →
       result = {| valid := false;
                   error := Some ("Parameter " +:+ n +:+ " must be <= "
                                  +:+ number_toString M) |})
  ∧ (∀ m M, mn = Some m → mx = Some M → PrimFloat.ltb M m = true →
       PrimFloat.is_nan x = false → valid result = false).
Proof.
  cbn zeta. rewrite validate_number.
  assert ((∀ m, mn = Some m → PrimFloat.ltb x m = false) →
          (∀ M, mx = Some M → PrimFloat.ltb M x = false) →
          checkParameter n (NumberParam d r df mn mx) (Some (VNumber x)) = None)
    as Hpass.
  { intros Hmin Hmax. unfold checkParameter. rewrite andb_false_r. cbn.
    destruct mn as [m|], mx as [M|];
      by rewrite ?(Hmin _ eq_refl), ?(Hmax _ eq_refl). }
  split; [|split; [|split; [|split; [|split; [|split]]]]].
  - intros Hmin Hmax. rewrite Hpass; [done|..].
    + intros m Hm. by apply leb_not_ltb, Hmin.
    + intros M HM. by apply leb_not_ltb, Hmax.
  - intros -> Hx Hmax. rewrite Hpass; [done|..].
    + intros m [= <-]. apply ltb_irrefl.
    + intros M HM. by apply leb_not_ltb, Hmax.
  - intros -> Hx Hmin. rewrite Hpass; [done|..].
    + intros m Hm. by apply leb_not_ltb, Hmin.
    + intros M [= <-]. apply ltb_irrefl.
  - intros Hnan. rewrite Hpass; [done|..].
    + intros m _. by apply ltb_nan_l.
    + intros M _. by apply ltb_nan_r.
  - intros m -> Hlt.
    by rewrite (checkParameter_below n (NumberParam _ _ _ _ _) x m
                  eq_refl eq_refl Hlt).
  - intros M -> Hlt Hmin.
    by rewrite (checkParameter_above n (NumberParam _ _ _ _ _) x M
                  eq_refl eq_refl Hlt Hmin).
  - intros m M -> -> Hempty Hx.
    destruct (ltb_empty_range x m M Hempty Hx) as [Hlt|Hlt].
    + by rewrite (checkParameter_below n (NumberParam _ _ _ _ _) x m
                    eq_refl eq_refl Hlt).
    + destruct (PrimFloat.ltb x m) eqn:Hlow.
      * by rewrite (checkParameter_below n (NumberParam _ _ _ _ _) x m
                      eq_refl eq_refl Hlow).
      * rewrite (checkParameter_above n (NumberParam _ _ _ _ _) x M
                   eq_refl eq_refl Hlt); [done|].
        by intros m' [= <-].
Qed.

(** What the loop does with one entry when the bag has nothing of its own. *)
Lemma checkParameter_empty_bag n s :
  checkParameter n s (read_property ∅ n)
  = match Object_prototype n with
    | Some _ =>
        Some {| valid := false;
                error := Some ("Parameter " +:+ n +:+ " must be a "
                               +:+ type_name (Param.type s)) |}
    | None =>
        if isRequiredParam s
        then Some {| valid := false;
                     error := Some ("Missing required parameter: " +:+ n) |}
        else None
    end.
Proof.
  rewrite read_property_inherited by apply lookup_empty.
  destruct (Object_prototype n) as [v|] eqn:Hproto.
  - apply checkParameter_mismatch. exact (Object_prototype_typeof _ _ s Hproto).
  - unfold checkParameter, isRequiredParam.
    by destruct (Param.required s) as [[]|].
Qed.

Lemma validateEntries_empty_bag entries :
  let passes (e : string * ToolParameter) :=
    isRequiredParam e.2 = false ∧ Object_prototype e.1 = None in
  (Forall passes entries ↔
   validateEntries entries ∅ = {| valid := true; error := None |})
  ∧ (∀ pre n s post,
       entries = pre ++ (n, s) :: post →
       Forall passes pre →
       validateEntries entries ∅
       = default {| valid := true; error := None |}
           (match checkParameter n s (read_property ∅ n) with
            | Some r => Some r
            | None => Some (validateEntries post ∅)
            end)).
Proof.
  cbn zeta.
  assert (∀ e : string * ToolParameter,
            isRequiredParam e.2 = false ∧ Object_prototype e.1 = None ↔
            checkParameter e.1 e.2 (read_property ∅ e.1) = None) as Hpass.
  { intros [n s]. cbn. rewrite checkParameter_empty_bag.
    destruct (Object_prototype n), (isRequiredParam s); intuition congruence. }
  split.
  - induction entries as [|[n s] rest IH]; cbn [validateEntries].
    + split; [done|constructor].
    + rewrite Forall_cons, (Hpass (n, s)), IH. cbn.
      destruct (checkParameter n s (read_property ∅ n)) as [r|] eqn:Hc.
      * split; [by intros [[=] _]|].
        intros ->. by rewrite checkParameter_empty_bag in Hc;
          destruct (Object_prototype n), (isRequiredParam s).
      * tauto.
  - intros pre n s post -> Hpre.
    induction Hpre as [|[n' s'] pre Hs' _ IH]; cbn [app validateEntries].
    + by destruct (checkParameter _ _ _).
    + apply (Hpass (n', s')) in Hs'. cbn in Hs'. by rewrite Hs'.
Qed.

(** X11: on the empty bag the validator succeeds exactly when no declared
    parameter is required (in the sense of [isRequiredParam]) or has the
    name of a member of [Object.prototype]. Otherwise it reports the first
    such parameter, in the order of [Object.entries], whatever the types
    and bounds of the others: with a type-mismatch reason when the name is
    that of a member of [Object.prototype] (the member is read as the
    value), as missing otherwise. *)
Theorem validateParameters_empty_bag tool :
  let entries := Object_entries (Tool.parameters tool) in
  let r := validateParameters tool ∅ in
  let passes (e : string * ToolParameter) :=
    isRequiredParam e.2 = false ∧ Object_prototype e.1 = None in
  (Forall passes (Tool.parameters tool) ↔
   r = {| valid := true; error := None |})
  ∧ (∀ pre n s post,
       entries = pre ++ (n, s) :: post →
       Forall passes pre →
       (isRequiredParam s = true → Object_prototype n = None →
        r = {| valid := false;
               error := Some ("Missing required parameter: " +:+ n) |})
       ∧ (n ∈ Object_prototype_functions ∨ n = "__proto__" →
          r = {| valid := false;
                 error := Some ("Parameter " +:+ n +:+ " must be a "
                                +:+ type_name (Param.type s)) |})).
Proof.
  cbn zeta. unfold validateParameters.
  destruct (validateEntries_empty_bag (Object_entries (Tool.parameters tool)))
    as [Hok Hfirst]. cbn zeta in Hok, Hfirst.
  split.
  - rewrite <- Hok. by rewrite Object_entries_Permutation.
  - intros pre n s post Hentries Hpre.
    rewrite (Hfirst pre n s post Hentries Hpre), checkParameter_empty_bag.
    split.
    + intros Hs ->. by rewrite Hs.
    + intros Hn. by destruct (Object_prototype_member n Hn) as (v & -> & _).
Qed.

(** X12: what a tool body may rely on. When validation succeeds, every
    declared parameter the bag holds has a value of the declared type, a
    number within the declared bounds, and every required parameter is
    there. *)
Theorem validated_parameters_are_typed tool parameters n s :
  valid (validateParameters tool parameters) = true →
  (n, s) ∈ Tool.parameters tool →
  (isRequiredParam s = true → ∃ v, parameters !! n = Some v)
  ∧ (∀ v, parameters !! n = Some v →
       typeof v = Param.type s
       ∧ ∀ x, v = VNumber x →
           (∀ mn, Param.min s = Some mn → PrimFloat.ltb x mn = false)
           ∧ (∀ mx, Param.max s = Some mx → PrimFloat.ltb mx x = false)).
Proof. apply validateParameters_typed. Qed.
End ValidatorExtras.

(** ** The placeholder oracle *)

Section OracleExtras.
Context `{NumberToString} `{StringRuntime}.

(** The two shapes of a reply of [callLLM]. *)
Lemma callLLM_reply_shape prompt messages availableTools :
  let r := callLLM_reply prompt messages availableTools in
  defaultText prompt availableTools ≠ ""
  ∧ ((text r = Some (defaultText prompt availableTools) ∧ toolCall r = None)
     ∨ (text r = None
        ∧ ∃ before lastMessage pre tool post,
            messages = before ++ [lastMessage]
            ∧ Message.role lastMessage = Role.user
            ∧ availableTools = pre ++ tool :: post
            ∧ Forall (λ t, includes (toLowerCase (Message.content lastMessage))
                             (toLowerCase (Tool.name t)) = false) pre
            ∧ includes (toLowerCase (Message.content lastMessage))
                (toLowerCase (Tool.name tool)) = true
            ∧ toolCall r = Some {| ToolCall.toolName := Tool.name tool;
                                   ToolCall.parameters := ∅ |})).
Proof.
  cbn zeta. split; [done|]. unfold callLLM_reply.
  destruct ((0 <? length availableTools)%nat && (0 <? length messages)%nat);
    [|by left].
  destruct (last messages) as [lastMessage|] eqn:Hlast; [|by left].
  destruct (Message.role lastMessage) eqn:Hrole; try by left.
  destruct (find _ availableTools) as [tool|] eqn:Hfind; [|by left].
  right. split; [done|].
  apply last_Some in Hlast as [before ->].
  assert (∃ pre post,
            availableTools = pre ++ tool :: post
            ∧ Forall (λ t, includes (toLowerCase (Message.content lastMessage))
                             (toLowerCase (Tool.name t)) = false) pre
            ∧ includes (toLowerCase (Message.content lastMessage))
                (toLowerCase (Tool.name tool)) = true)
    as (pre & post & -> & Hpre & Htool).
  { clear -Hfind. induction availableTools as [|t rest IH]; [done|].
    cbn in Hfind.
    destruct (includes _ (toLowerCase (Tool.name t))) eqn:Ht.
    - injection Hfind as ->. by exists [], rest.
    - destruct (IH Hfind) as (pre & post & -> & Hpre & Htool).
      exists (t :: pre), post. repeat split; [by constructor|done]. }
  by exists before, lastMessage, pre, tool, post.
Qed.

(** X13: [callLLM] keeps the contract of an oracle. It answers with exactly
    one of a text and a tool call; the text is never empty; and it asks for
    a tool only when the last message is a user message, naming the first of
    the available tools whose lower-cased name the lower-cased content
    includes, with an empty parameter bag. *)
Theorem callLLM_reply_well_formed prompt messages availableTools :
  let r := callLLM_reply prompt messages availableTools in
  defaultText prompt availableTools ≠ ""
  ∧ ((text r = Some (defaultText prompt availableTools) ∧ toolCall r = None)
     ∨ (text r = None
        ∧ ∃ before lastMessage pre tool post,
            messages = before ++ [lastMessage]
            ∧ Message.role lastMessage = Role.user
            ∧ availableTools = pre ++ tool :: post
            ∧ Forall (λ t, includes (toLowerCase (Message.content lastMessage))
                             (toLowerCase (Tool.name t)) = false) pre
            ∧ includes (toLowerCase (Message.content lastMessage))
                (toLowerCase (Tool.name tool)) = true
            ∧ toolCall r = Some {| ToolCall.toolName := Tool.name tool;
                                   ToolCall.parameters := ∅ |})).
Proof. apply callLLM_reply_shape. Qed.








End OracleExtras.

(** ** Tool bodies *)

Section BodyExtras.
Context `{NumberToString} `{StringRuntime} `{NumberToFixed}.

(** X16: the calculator. Whatever the case of the operation's name:
    dividing by zero (of either sign) is rejected with [Cannot divide by
    zero]; an operation that is none of the four is rejected with a message
    giving the name as it was written; everything else is fulfilled. A bag
    that passed validation against the calculator's schema always
    destructures into a string and two numbers. *)
Theorem calculator_execute_outcomes operation a b :
  let op := toLowerCase operation in
  (PrimFloat.eqb 0%float 0%float = true ∧ PrimFloat.eqb (-0)%float 0%float = true)
  ∧ (op = "divide" → PrimFloat.eqb b 0%float = true →
     calculator_execute operation a b
     = Rejected (ErrorObject "Cannot divide by zero"))
  ∧ (op ≠ "add" → op ≠ "subtract" → op ≠ "multiply" → op ≠ "divide" →
     calculator_execute operation a b
     = Rejected (ErrorObject ("Unknown operation: " +:+ operation)))
  ∧ (op = "add" ∨ op = "subtract" ∨ op = "multiply"
     ∨ (op = "divide" ∧ PrimFloat.eqb b 0%float = false) →
     ∃ result, calculator_execute operation a b = Fulfilled result)
  ∧ (∀ params,
       valid (validateParameters exampleTools.calculatorTool params) = true →
       ∃ operation' a' b',
         calculator_arguments params = Some (operation', a', b')).
Proof.
  cbn zeta. split; [by split|]. unfold calculator_execute.
  split; [|split; [|split]].
  - intros -> ->. done.
  - intros Hadd Hsub Hmul Hdiv.
    apply String.eqb_neq in Hadd, Hsub, Hmul, Hdiv.
    by rewrite Hadd, Hsub, Hmul, Hdiv.
  - intros [-> | [-> | [-> | [-> ->]]]]; cbn; by eexists.
  - intros params Hvalid. unfold calculator_arguments.
    destruct (validateParameters_typed _ params "operation" _ Hvalid
                ltac:(cbn; apply list_elem_of_here)) as [Hop Hop'].
    destruct (validateParameters_typed _ params "a" _ Hvalid
                ltac:(cbn; apply list_elem_of_further, list_elem_of_here))
      as [Ha Ha'].
    destruct (validateParameters_typed _ params "b" _ Hvalid
                ltac:(cbn; do 2 apply list_elem_of_further;
                      apply list_elem_of_here)) as [Hb Hb'].
    destruct (Hop eq_refl) as [vo Hvo], (Ha eq_refl) as [va Hva],
      (Hb eq_refl) as [vb Hvb].
    destruct (Hop' _ Hvo) as [Hto _], (Ha' _ Hva) as [Hta _],
      (Hb' _ Hvb) as [Htb _].
    rewrite (read_property_own _ _ _ Hvo), (read_property_own _ _ _ Hva),
      (read_property_own _ _ _ Hvb).
    destruct vo, va, vb; try discriminate. by eexists _, _, _.
Qed.

(** X17: the temperature converter compares the two units before it checks
    them: with the same unit on both sides, in any case, it returns the
    value unchanged, for a unit it does not know as well. Otherwise an
    unknown source unit is rejected first, then an unknown target unit,
    each with a message giving the unit as it was written; two different
    known units are always converted. *)
Theorem convertTemperature_execute_outcomes value from to :
  let fromUnit := toLowerCase from in
  let toUnit := toLowerCase to in
  let known unit := unit = "celsius" ∨ unit = "fahrenheit" ∨ unit = "kelvin" in
  (fromUnit = toUnit →
   convertTemperature_execute value from to
   = Fulfilled (number_toString value +:+ "°" +:+ toUpperCase (charAt toUnit 0)))
  ∧ (fromUnit ≠ toUnit → ¬ known fromUnit →
     convertTemperature_execute value from to
     = Rejected (ErrorObject ("Unknown unit: " +:+ from)))
  ∧ (fromUnit ≠ toUnit → known fromUnit → ¬ known toUnit →
     convertTemperature_execute value from to
     = Rejected (ErrorObject ("Unknown unit: " +:+ to)))
  ∧ (fromUnit ≠ toUnit → known fromUnit → known toUnit →
     ∃ result, convertTemperature_execute value from to = Fulfilled result).
Proof.
  cbn zeta. unfold convertTemperature_execute.
  split; [|split; [|split]].
  - intros ->. by rewrite String.eqb_refl.
  - intros Hne Hunknown. apply String.eqb_neq in Hne. rewrite Hne.
    destruct (String.eqb_spec (toLowerCase from) "celsius"); [tauto|].
    destruct (String.eqb_spec (toLowerCase from) "fahrenheit"); [tauto|].
    destruct (String.eqb_spec (toLowerCase from) "kelvin"); [tauto|]. done.
  - intros Hne Hfrom Hunknown. apply String.eqb_neq in Hne. rewrite Hne.
    destruct (String.eqb_spec (toLowerCase to) "celsius"); [tauto|].
    destruct (String.eqb_spec (toLowerCase to) "fahrenheit"); [tauto|].
    destruct (String.eqb_spec (toLowerCase to) "kelvin"); [tauto|].
    destruct Hfrom as [-> | [-> | ->]]; done.
  - intros Hne Hfrom Hto. apply String.eqb_neq in Hne. rewrite Hne.
    destruct Hfrom as [-> | [-> | ->]], Hto as [-> | [-> | ->]];
      cbn; by eexists.
Qed.
End BodyExtras.

(** * Examples on the example agent *)

#[local] Existing Instance integral_toString.

Lemma example_world_idle : isRunning (this example_world) = false.
Proof. vm_compute. reflexivity. Defined.

Lemma example_world_transcript :
  transcript example_world = Some example_transcript.
Proof. vm_compute. reflexivity. Defined.

Lemma single_flight_witness :
  let first := run "hello" 200%Z example_world in
  (in_flight first.1 first.2 ∧ pending first.1 = true)
  ∧ run "again" 300%Z first.2
    = (Settled (Rejected (ErrorObject "Agent is already running")), first.2)
  ∧ isRunning (this example_world) = false
  ∧ isRunning (this (run_turn (text_turn (Some "Hi!")) "hello" example_world).2)
    = false.
Proof.
  cbn zeta.
  assert (in_flight (run "hello" 200%Z example_world).1
            (run "hello" 200%Z example_world).2) as Hin
    by exact (in_flight_run example_world "hello" 200%Z example_world_idle).
  assert (pending (run "hello" 200%Z example_world).1 = true) as Hp
    by (vm_compute; reflexivity).
  split; [by split|]. split; [|split].
  - exact (proj1 single_flight _ _ Hin Hp "again" 300%Z).
  - exact example_world_idle.
  - exact (proj1 (proj2 (proj2 single_flight) (text_turn (Some "Hi!")) "hello"
                    example_world example_world_idle)).
Defined.

Lemma run_appends_in_order_witness :
  let turn := tool_turn greet_call (Fulfilled "Hello, Ada!")
                {| text := Some "Done."; toolCall := None |} in
  let r := run_turn turn "greet Ada" example_world in
  isRunning (this example_world) = false
  ∧ transcript example_world = Some example_transcript
  ∧ r.1 = [AwaitDecide (call_of (this example_world));
           AwaitExecute greet_call exampleTools.greetingTool;
           AwaitSummarize (call_of (this example_world))]
          ++ [Settled (Fulfilled (messages (this example_world)))]
  ∧ ∃ response relevant toolPart textPart,
      decideReply turn = Fulfilled response
      ∧ transcript r.2
        = Some (example_transcript
                ++ [{| Message.role := Role.user;
                       Message.content := "greet Ada";
                       Message.timestamp := 200%Z;
                       Message.toolName := None;
                       Message.toolResult := None |}]
                ++ toolPart ++ textPart)
      ∧ ((∃ tc m, toolCall response = Some tc
                  ∧ summarizeReply turn = Fulfilled relevant
                  ∧ toolPart = [m] ∧ Message.role m = Role.tool)
         ∨ (toolCall response = None ∧ relevant = response ∧ toolPart = []))
      ∧ ((∃ s now, text relevant = Some s ∧ s ≠ ""
                   ∧ textPart = [{| Message.role := Role.assistant;
                                    Message.content := s;
                                    Message.timestamp := now;
                                    Message.toolName := None;
                                    Message.toolResult := None |}])
         ∨ ((text relevant = None ∨ text relevant = Some "") ∧ textPart = [])).
Proof.
  cbn zeta.
  assert ((run_turn (tool_turn greet_call (Fulfilled "Hello, Ada!")
                       {| text := Some "Done."; toolCall := None |})
             "greet Ada" example_world).1
          = [AwaitDecide (call_of (this example_world));
             AwaitExecute greet_call exampleTools.greetingTool;
             AwaitSummarize (call_of (this example_world))]
            ++ [Settled (Fulfilled (messages (this example_world)))]) as Hsteps
    by (vm_compute; reflexivity).
  split; [exact example_world_idle|].
  split; [exact example_world_transcript|].
  split; [exact Hsteps|].
  exact (run_appends_in_order _ _ _ _ _ _ example_world_idle
           example_world_transcript Hsteps).
Defined.

(** C2, as stated, fails when the oracle answers with the empty text: the
    run completes normally, the decide-phase reply has a text and no tool
    call, and no assistant message is appended. *)
Lemma run_empty_text_appends_no_assistant :
  let turn := text_turn (Some "") in
  let r := run_turn turn "hello" example_world in
  let user :=
    {| Message.role := Role.user;
       Message.content := "hello";
       Message.timestamp := 200%Z;
       Message.toolName := None;
       Message.toolResult := None |} in
  decideReply turn = Fulfilled {| text := Some ""; toolCall := None |}
  ∧ r.1 = [AwaitDecide (call_of (this example_world));
           Settled (Fulfilled (messages (this example_world)))]
  ∧ transcript r.2 = Some (example_transcript ++ [user])
  ∧ ∀ now,
      transcript r.2
      ≠ Some (example_transcript
              ++ [user; {| Message.role := Role.assistant;
                           Message.content := "";
                           Message.timestamp := now;
                           Message.toolName := None;
                           Message.toolResult := None |}]).
Proof.
  cbn zeta. split; [reflexivity|]. split; [vm_compute; reflexivity|].
  assert (transcript (run_turn (text_turn (Some "")) "hello" example_world).2
          = Some (example_transcript
                  ++ [{| Message.role := Role.user;
                         Message.content := "hello";
                         Message.timestamp := 200%Z;
                         Message.toolName := None;
                         Message.toolResult := None |}])) as Ht
    by (vm_compute; reflexivity).
  split; [exact Ht|]. rewrite Ht. intros now [=].
Qed.

Lemma run_neither_text_nor_toolCall_witness :
  let r := run_turn (text_turn None) "hello" example_world in
  isRunning (this example_world) = false
  ∧ transcript example_world = Some example_transcript
  ∧ decideReply (text_turn None) = Fulfilled {| text := None; toolCall := None |}
  ∧ r.1 = [AwaitDecide
             {| llm_prompt := Agent.prompt example_agent;
                llm_messages := messages (this example_world);
                llm_availableTools := Agent.tools example_agent |};
           Settled (Fulfilled (messages (this example_world)))]
  ∧ transcript r.2
    = Some (example_transcript
            ++ [{| Message.role := Role.user;
                   Message.content := "hello";
                   Message.timestamp := 200%Z;
                   Message.toolName := None;
                   Message.toolResult := None |}])
  ∧ isRunning (this r.2) = false.
Proof.
  cbn zeta.
  split; [exact example_world_idle|].
  split; [exact example_world_transcript|].
  split; [reflexivity|].
  exact (run_neither_text_nor_toolCall (text_turn None) "hello" example_world
           example_transcript example_world_idle example_world_transcript
           eq_refl).
Defined.



Lemma example_tools_find_calculator operation a b :
  find (λ t, String.eqb (Tool.name t)
               (ToolCall.toolName (calculator_call operation a b)))
    (agent_tools example_world)
  = Some exampleTools.calculatorTool.
Proof. vm_compute. reflexivity. Defined.

Lemma tool_failures_folded_witness :
  let bad := calculator_call "add" (VString "two") (VNumber 2%float) in
  let zero := calculator_call "divide" (VNumber 1%float) (VNumber 0%float) in
  let silent := {| text := None; toolCall := None |} in
  let turn1 := tool_turn bad (Fulfilled "") silent in
  let turn2 := tool_turn zero (Rejected (ErrorObject "Cannot divide by zero"))
                 silent in
  let user content :=
    {| Message.role := Role.user;
       Message.content := content;
       Message.timestamp := 200%Z;
       Message.toolName := None;
       Message.toolResult := None |} in
  (validateParameters exampleTools.calculatorTool (ToolCall.parameters bad)
   = {| valid := false; error := Some "Parameter a must be a number" |}
   ∧ (run_turn turn1 "add two and 2" example_world).1
     = [AwaitDecide (call_of (this example_world));
        AwaitSummarize (call_of (this example_world));
        Settled (Fulfilled (messages (this example_world)))]
   ∧ ∃ rest,
       transcript (run_turn turn1 "add two and 2" example_world).2
       = Some (example_transcript
               ++ [user "add two and 2";
                   {| Message.role := Role.tool;
                      Message.content := "Error: Parameter a must be a number";
                      Message.timestamp := 201%Z;
                      Message.toolName := Some "calculator";
                      Message.toolResult := None |}] ++ rest)
       ∧ Forall (λ m, Message.role m = Role.assistant) rest)
  ∧ (valid (validateParameters exampleTools.calculatorTool
              (ToolCall.parameters zero)) = true
     ∧ (run_turn turn2 "divide 1 by 0" example_world).1
       = [AwaitDecide (call_of (this example_world));
          AwaitExecute zero exampleTools.calculatorTool;
          AwaitSummarize (call_of (this example_world));
          Settled (Fulfilled (messages (this example_world)))]
     ∧ ∃ rest,
         transcript (run_turn turn2 "divide 1 by 0" example_world).2
         = Some (example_transcript
                 ++ [user "divide 1 by 0";
                     {| Message.role := Role.tool;
                        Message.content := "Error: Cannot divide by zero";
                        Message.timestamp := 202%Z;
                        Message.toolName := Some "calculator";
                        Message.toolResult := None |}] ++ rest)
         ∧ Forall (λ m, Message.role m = Role.assistant) rest).
Proof.
  cbn zeta.
  set (bad := calculator_call "add" (VString "two") (VNumber 2%float)).
  set (zero := calculator_call "divide" (VNumber 1%float) (VNumber 0%float)).
  set (silent := {| text := None; toolCall := None |}).
  assert (validateParameters exampleTools.calculatorTool (ToolCall.parameters bad)
          = {| valid := false; error := Some "Parameter a must be a number" |})
    as Hbad by (vm_compute; reflexivity).
  assert (valid (validateParameters exampleTools.calculatorTool
                   (ToolCall.parameters zero)) = true) as Hzero
    by (vm_compute; reflexivity).
  split.
  - split; [exact Hbad|].
    exact (proj2 (proj1 (proj2 (proj2
             (tool_failures_folded (tool_turn bad (Fulfilled "") silent)
                "add two and 2" example_world example_transcript _ bad
                example_world_idle example_world_transcript eq_refl eq_refl)))
             exampleTools.calculatorTool _
             (example_tools_find_calculator _ _ _) Hbad)).
  - split; [exact Hzero|].
    exact (proj2 (proj2 (proj2 (proj2
             (tool_failures_folded
                (tool_turn zero (Rejected (ErrorObject "Cannot divide by zero"))
                   silent)
                "divide 1 by 0" example_world example_transcript _ zero
                example_world_idle example_world_transcript eq_refl eq_refl)))
             exampleTools.calculatorTool _
             (example_tools_find_calculator _ _ _) Hzero eq_refl)).
Defined.

(** C4, as stated, fails when what the tool body raises is not an [Error]:
    a body that does [throw 'kaput'] is caught, but neither the ToolResult
    nor the tool-role message carries the text raised. *)
Lemma tool_failure_without_message :
  let call := calculator_call "add" (VNumber 1%float) (VNumber 2%float) in
  let raised := NonError (VString "kaput") in
  let turn := tool_turn call (Rejected raised)
                {| text := None; toolCall := None |} in
  let r := run_turn turn "add 1 and 2" example_world in
  let user :=
    {| Message.role := Role.user;
       Message.content := "add 1 and 2";
       Message.timestamp := 200%Z;
       Message.toolName := None;
       Message.toolResult := None |} in
  let failure reason :=
    {| Message.role := Role.tool;
       Message.content := "Error: " +:+ reason;
       Message.timestamp := 202%Z;
       Message.toolName := Some "calculator";
       Message.toolResult := None |} in
  r.1 = [AwaitDecide (call_of (this example_world));
         AwaitExecute call exampleTools.calculatorTool;
         AwaitSummarize (call_of (this example_world));
         Settled (Fulfilled (messages (this example_world)))]
  ∧ ToolResult.error (executeTool_settle call (Rejected raised))
    = Some "Unknown error"
  ∧ ToolResult.error (executeTool_settle call (Rejected raised)) ≠ Some "kaput"
  ∧ transcript r.2 = Some (example_transcript ++ [user; failure "Unknown error"])
  ∧ transcript r.2 ≠ Some (example_transcript ++ [user; failure "kaput"]).
Proof.
  cbn zeta. split; [vm_compute; reflexivity|]. split; [reflexivity|].
  split; [discriminate|].
  assert (transcript
            (run_turn
               (tool_turn
                  (calculator_call "add" (VNumber 1%float) (VNumber 2%float))
                  (Rejected (NonError (VString "kaput")))
                  {| text := None; toolCall := None |})
               "add 1 and 2" example_world).2
          = Some (example_transcript
                  ++ [{| Message.role := Role.user;
                         Message.content := "add 1 and 2";
                         Message.timestamp := 200%Z;
                         Message.toolName := None;
                         Message.toolResult := None |};
                      {| Message.role := Role.tool;
                         Message.content := "Error: Unknown error";
                         Message.timestamp := 202%Z;
                         Message.toolName := Some "calculator";
                         Message.toolResult := None |}])) as Ht
    by (vm_compute; reflexivity).
  split; [exact Ht|]. rewrite Ht. intros [=].
Qed.



Lemma example_tools_unknown :
  Forall (λ t, Tool.name t ≠ ToolCall.toolName unknown_call)
    (agent_tools example_world).
Proof.
  assert (agent_tools example_world
          = [exampleTools.calculatorTool; exampleTools.randomNumberTool;
             exampleTools.stringReverserTool; exampleTools.currentTimeTool;
             exampleTools.wordCounterTool; exampleTools.temperatureConverterTool;
             exampleTools.greetingTool]) as -> by (vm_compute; reflexivity).
  repeat constructor; discriminate.
Defined.

Lemma unknown_tool_message_witness :
  let turn := tool_turn unknown_call (Fulfilled "")
                {| text := Some "Sorry."; toolCall := None |} in
  let r := run_turn turn "hello" example_world in
  isRunning (this example_world) = false
  ∧ transcript example_world = Some example_transcript
  ∧ Forall (λ t, Tool.name t ≠ "doesNotExist") (agent_tools example_world)
  ∧ r.1 = [AwaitDecide (call_of (this example_world));
           AwaitSummarize (call_of (this example_world));
           Settled (Fulfilled (messages (this example_world)))]
  ∧ ∃ rest,
      transcript r.2
      = Some (example_transcript
              ++ [userMsg "hello" 200%Z;
                  {| Message.role := Role.tool;
                     Message.content :=
                       "Error: Tool " +:+ dquote +:+ "doesNotExist" +:+ dquote
                       +:+ " not found";
                     Message.timestamp := 201%Z;
                     Message.toolName := Some "doesNotExist";
                     Message.toolResult := None |}] ++ rest)
      ∧ Forall (λ m, Message.role m = Role.assistant) rest.
Proof.
  cbn zeta.
  split; [exact example_world_idle|].
  split; [exact example_world_transcript|].
  split; [exact example_tools_unknown|].
  exact (unknown_tool_message
           (tool_turn unknown_call (Fulfilled "")
              {| text := Some "Sorry."; toolCall := None |})
           "hello" example_world example_transcript _ unknown_call
           example_world_idle example_world_transcript eq_refl eq_refl
           example_tools_unknown).
Defined.

Lemma reset_unguarded_witness :
  let first := run "hello" 200%Z example_world in
  let w' := (reset 300%Z first.2).2 in
  let turn := text_turn (Some "Hi!") in
  let restart :=
    [{| Message.role := Role.system;
        Message.content := Agent.prompt example_agent;
        Message.timestamp := 300%Z;
        Message.toolName := None;
        Message.toolResult := None |}] in
  (in_flight first.1 first.2 ∧ pending first.1 = true)
  ∧ transcript w' = Some restart
  ∧ isRunning (this w') = isRunning (this first.2)
  ∧ isRunning (this first.2) = true
  ∧ in_flight first.1 w'
  ∧ ∃ new,
      transcript (drive 3 turn first.1 w').2 = Some (restart ++ new)
      ∧ isRunning (this (drive 3 turn first.1 w').2) = false
      ∧ ∀ old, transcript first.2 = Some old →
          transcript (drive 3 turn first.1 first.2).2 = Some (old ++ new)
          ∧ read_messages (heap (drive 3 turn first.1 w').2)
              (messages (this first.2)) = Some old.
Proof.
  cbn zeta.
  assert (in_flight (run "hello" 200%Z example_world).1
            (run "hello" 200%Z example_world).2) as Hin
    by exact (in_flight_run example_world "hello" 200%Z example_world_idle).
  assert (pending (run "hello" 200%Z example_world).1 = true) as Hp
    by (vm_compute; reflexivity).
  destruct (reset_unguarded 300%Z (run "hello" 200%Z example_world).2)
    as (Ht & Hb & _ & _ & Hflight).
  destruct (Hflight _ Hin Hp) as (Hup & Hin' & Hturn).
  destruct (Hturn (text_turn (Some "Hi!"))) as (new & Hnew & Hdown & Hsame & _).
  split; [by split|]. split; [exact Ht|]. split; [exact Hb|].
  split; [exact Hup|]. split; [exact Hin'|].
  exists new. split; [exact Hnew|]. split; [exact Hdown|exact Hsame].
Defined.

(** C7, as stated, fails: called while a run is suspended (the flag is up),
    [reset] is carried out. The transcript loses the user message, and the
    run, resumed, completes on the new transcript. *)
Lemma reset_while_running_is_performed :
  let first := run "hello" 200%Z example_world in
  let w2 := (reset 300%Z first.2).2 in
  let last :=
    resume_decide (Fulfilled {| text := Some "Hi!"; toolCall := None |})
      400%Z w2 in
  let message role content now :=
    {| Message.role := role;
       Message.content := content;
       Message.timestamp := now;
       Message.toolName := None;
       Message.toolResult := None |} in
  pending first.1 = true
  ∧ isRunning (this first.2) = true
  ∧ transcript first.2
    = Some (example_transcript ++ [message Role.user "hello" 200%Z])
  ∧ transcript w2
    = Some [message Role.system (Agent.prompt example_agent) 300%Z]
  ∧ transcript w2 ≠ transcript first.2
  ∧ last.1 = Settled (Fulfilled (messages (this w2)))
  ∧ transcript last.2
    = Some [message Role.system (Agent.prompt example_agent) 300%Z;
            message Role.assistant "Hi!" 400%Z].
Proof.
  cbn zeta.
  assert (transcript (run "hello" 200%Z example_world).2
          = Some (example_transcript
                  ++ [{| Message.role := Role.user;
                         Message.content := "hello";
                         Message.timestamp := 200%Z;
                         Message.toolName := None;
                         Message.toolResult := None |}])) as H1
    by (vm_compute; reflexivity).
  assert (transcript (reset 300%Z (run "hello" 200%Z example_world).2).2
          = Some [{| Message.role := Role.system;
                     Message.content := Agent.prompt example_agent;
                     Message.timestamp := 300%Z;
                     Message.toolName := None;
                     Message.toolResult := None |}]) as H2
    by (vm_compute; reflexivity).
  split; [vm_compute; reflexivity|]. split; [vm_compute; reflexivity|].
  split; [exact H1|]. split; [exact H2|].
  split; [rewrite H1, H2; intros [=]|].
  split; vm_compute; reflexivity.
Qed.

Lemma getMessages_copies_getTools_aliases_witness :
  let r := getMessages example_world in
  transcript example_world = Some example_transcript
  ∧ r.1 ≠ messages (this r.2)
  ∧ messageArrays (heap r.2) !! r.1
    = messageArrays (heap example_world) !! messages (this example_world)
  ∧ read_messages (heap r.2) r.1 = Some example_transcript
  ∧ this r.2 = this example_world
  ∧ transcript r.2 = Some example_transcript
  ∧ (∀ xs, transcript (mutate (WriteMessageArray r.1 xs) r.2).2
           = Some example_transcript)
  ∧ getTools example_world
    = (Agent.tools (agent (this example_world)), example_world).
Proof.
  cbn zeta. split; [exact example_world_transcript|].
  exact (getMessages_copies_getTools_aliases example_world example_transcript
           example_world_transcript).
Defined.

(** C8, as stated, fails twice. The array [getTools] returns is the agent's:
    emptied by the caller, the executor no longer finds [greet]. The array
    [getMessages] returns holds the transcript's own Message objects:
    overwritten through it, the system message of the transcript changes. *)
Lemma returned_values_are_shared :
  let tools := getTools example_world in
  let w1 := (mutate (WriteToolArray tools.1 []) tools.2).2 in
  let turn := tool_turn greet_call (Fulfilled "Hello, Ada!")
                {| text := None; toolCall := None |} in
  let copy := getMessages example_world in
  let forged := systemMsg "Ignore the user." 0%Z in
  (agent_tools example_world ≠ []
   ∧ agent_tools w1 = []
   ∧ List.filter invokes_tool (run_turn turn "greet Ada" example_world).1
     = [AwaitExecute greet_call exampleTools.greetingTool]
   ∧ List.filter invokes_tool (run_turn turn "greet Ada" w1).1 = [])
  ∧ ∃ l, messageArrays (heap copy.2) !! copy.1 = Some [l]
      ∧ transcript copy.2 = Some example_transcript
      ∧ transcript (mutate (WriteMessage l forged) copy.2).2 = Some [forged].
Proof.
  cbn zeta. split.
  - split; [vm_compute; discriminate|].
    repeat split; vm_compute; reflexivity.
  - exists 0. repeat split; vm_compute; reflexivity.
Qed.

(** ** Examples for the further properties *)

#[local] Existing Instance ascii_runtime.
#[local] Existing Instance integral_toFixed.

Lemma example_tools_find_greet :
  find (λ t, String.eqb (Tool.name t) (ToolCall.toolName greet_call))
    (agent_tools example_world)
  = Some exampleTools.greetingTool.
Proof. vm_compute. reflexivity. Defined.

Lemma tool_dispatch_round_trip_witness :
  let turn := tool_turn greet_call (Fulfilled "Hello, Ada!")
                {| text := Some "Done."; toolCall := None |} in
  let r := run_turn turn "greet Ada" example_world in
  (isRunning (this example_world) = false
   ∧ transcript example_world = Some example_transcript
   ∧ valid (validateParameters exampleTools.greetingTool
              (ToolCall.parameters greet_call)) = true)
  ∧ r.1 = [AwaitDecide (call_of (this example_world));
           AwaitExecute greet_call exampleTools.greetingTool;
           AwaitSummarize (call_of (this example_world));
           Settled (Fulfilled (messages (this example_world)))]
  ∧ ∃ rest,
      transcript r.2
      = Some (example_transcript
              ++ [userMsg "greet Ada" 200%Z;
                  {| Message.role := Role.tool;
                     Message.content := "Hello, Ada!";
                     Message.timestamp := 202%Z;
                     Message.toolName := Some "greet";
                     Message.toolResult := Some "Hello, Ada!" |}] ++ rest)
      ∧ Forall (λ m, Message.role m = Role.assistant) rest.
Proof.
  cbn zeta.
  assert (valid (validateParameters exampleTools.greetingTool
                   (ToolCall.parameters greet_call)) = true) as Hv
    by (vm_compute; reflexivity).
  split; [split; [apply example_world_idle
                 |split; [apply example_world_transcript|exact Hv]]|].
  exact (proj2 (tool_dispatch_round_trip
                  (tool_turn greet_call (Fulfilled "Hello, Ada!")
                     {| text := Some "Done."; toolCall := None |})
                  "greet Ada" example_world example_transcript _ greet_call
                  exampleTools.greetingTool "Hello, Ada!"
                  example_world_idle example_world_transcript eq_refl eq_refl
                  example_tools_find_greet Hv eq_refl)).
Defined.

Lemma oracle_failure_keeps_partial_transcript_witness :
  let down := ErrorObject "network down" in
  let turn1 := {| decideReply := Rejected down;
                  toolOutcome := Fulfilled "";
                  summarizeReply := Rejected down;
                  clock := example_clock |} in
  let turn2 := {| decideReply :=
                    Fulfilled {| text := None; toolCall := Some greet_call |};
                  toolOutcome := Fulfilled "Hello, Ada!";
                  summarizeReply := Rejected down;
                  clock := example_clock |} in
  (isRunning (this example_world) = false
   ∧ transcript example_world = Some example_transcript)
  ∧ ((run_turn turn1 "hello" example_world).1
     = [AwaitDecide (call_of (this example_world)); Settled (Rejected down)]
     ∧ transcript (run_turn turn1 "hello" example_world).2
       = Some (example_transcript ++ [userMsg "hello" 200%Z])
     ∧ isRunning (this (run_turn turn1 "hello" example_world).2) = false)
  ∧ ((∃ steps, (run_turn turn2 "greet Ada" example_world).1
               = steps ++ [Settled (Rejected down)])
     ∧ (∃ m, Message.role m = Role.tool
           ∧ transcript (run_turn turn2 "greet Ada" example_world).2
             = Some (example_transcript ++ [userMsg "greet Ada" 200%Z; m]))
     ∧ isRunning (this (run_turn turn2 "greet Ada" example_world).2) = false).
Proof.
  cbn zeta. split; [split; [apply example_world_idle
                           |apply example_world_transcript]|].
  split.
  - exact (proj1 (oracle_failure_keeps_partial_transcript
                    {| decideReply := Rejected (ErrorObject "network down");
                       toolOutcome := Fulfilled "";
                       summarizeReply := Rejected (ErrorObject "network down");
                       clock := example_clock |}
                    "hello" example_world example_transcript
                    (ErrorObject "network down")
                    example_world_idle example_world_transcript) eq_refl).
  - exact (proj2 (oracle_failure_keeps_partial_transcript
                    {| decideReply :=
                         Fulfilled {| text := None;
                                      toolCall := Some greet_call |};
                       toolOutcome := Fulfilled "Hello, Ada!";
                       summarizeReply := Rejected (ErrorObject "network down");
                       clock := example_clock |}
                    "greet Ada" example_world example_transcript
                    (ErrorObject "network down")
                    example_world_idle example_world_transcript)
             _ greet_call eq_refl eq_refl eq_refl).
Defined.

Lemma dispatch_first_match_wins_witness :
  let shadowed :=
    {| Tool.name := "greet"; Tool.description := "Another greeting";
       Tool.parameters := [] |} in
  (Forall (λ t, Tool.name t ≠ ToolCall.toolName greet_call)
     [exampleTools.calculatorTool]
   ∧ Tool.name exampleTools.greetingTool = ToolCall.toolName greet_call
   ∧ valid (validateParameters exampleTools.greetingTool
              (ToolCall.parameters greet_call)) = true)
  ∧ dispatch ([exampleTools.calculatorTool]
              ++ exampleTools.greetingTool :: [shadowed]) greet_call
    = dispatch ([exampleTools.calculatorTool]
                ++ exampleTools.greetingTool :: []) greet_call
  ∧ dispatch ([exampleTools.calculatorTool]
              ++ exampleTools.greetingTool :: [shadowed]) greet_call
    = inr exampleTools.greetingTool.
Proof.
  cbn zeta.
  assert (Forall (λ t, Tool.name t ≠ ToolCall.toolName greet_call)
            [exampleTools.calculatorTool]) as Hpre
    by (repeat constructor; discriminate).
  assert (valid (validateParameters exampleTools.greetingTool
                   (ToolCall.parameters greet_call)) = true) as Hv
    by (vm_compute; reflexivity).
  split; [split; [exact Hpre|split; [reflexivity|exact Hv]]|]. split.
  - exact (proj1 (dispatch_first_match_wins [exampleTools.calculatorTool]
                    exampleTools.greetingTool _ [] greet_call Hpre eq_refl)).
  - exact (proj2 (dispatch_first_match_wins [exampleTools.calculatorTool]
                    exampleTools.greetingTool _ [] greet_call Hpre eq_refl) Hv).
Defined.

Lemma run_result_is_live_witness :
  let first := run_turn (text_turn (Some "Hi!")) "hello" example_world in
  let second := run_turn (text_turn (Some "Fine.")) "how are you?" first.2 in
  let a := messages (this example_world) in
  (isRunning (this example_world) = false
   ∧ transcript example_world = Some example_transcript
   ∧ first.1 = [AwaitDecide (call_of (this example_world))]
               ++ [Settled (Fulfilled a)])
  ∧ (∃ new1 new2,
       read_messages (heap first.2) a = Some (example_transcript ++ new1)
       ∧ read_messages (heap second.2) a
         = Some (example_transcript ++ new1
                 ++ userMsg "how are you?" 200%Z :: new2))
  ∧ (∀ steps2 a2, second.1 = steps2 ++ [Settled (Fulfilled a2)] → a2 = a).
Proof.
  cbn zeta.
  assert ((run_turn (text_turn (Some "Hi!")) "hello" example_world).1
          = [AwaitDecide (call_of (this example_world))]
            ++ [Settled (Fulfilled (messages (this example_world)))]) as Hsteps
    by (vm_compute; reflexivity).
  split; [split; [apply example_world_idle
                 |split; [apply example_world_transcript|exact Hsteps]]|].
  exact (proj2 (run_result_is_live (text_turn (Some "Hi!")) "hello"
                  (text_turn (Some "Fine.")) "how are you?" example_world
                  example_transcript _ _ example_world_idle
                  example_world_transcript Hsteps)).
Defined.

Lemma reset_leaves_old_references_stale_witness :
  let a := messages (this example_world) in
  let w' := (reset 300%Z example_world).2 in
  transcript example_world = Some example_transcript
  ∧ messages (this w') ≠ a
  ∧ read_messages (heap w') a = Some example_transcript
  ∧ read_messages
      (heap (run_turns [(text_turn (Some "Hi!"), "hello")] w')) a
    = Some example_transcript.
Proof.
  cbn zeta. split; [apply example_world_transcript|].
  exact (reset_leaves_old_references_stale example_world example_transcript
           300%Z [(text_turn (Some "Hi!"), "hello")] example_world_transcript).
Defined.

Lemma transcript_grows_by_turns_witness :
  let turns := [(text_turn (Some "Hi!"), "hello");
                (tool_turn greet_call (Fulfilled "Hello, Ada!")
                   {| text := Some "Done."; toolCall := None |}, "greet Ada")] in
  (isRunning (this example_world) = false
   ∧ transcript example_world = Some example_transcript)
  ∧ ∃ blocks,
      transcript (run_turns turns example_world)
      = Some (example_transcript ++ concat blocks)
      ∧ Forall2
          (λ (t : Turn * string) block,
             ∃ rest,
               block = {| Message.role := Role.user;
                          Message.content := t.2;
                          Message.timestamp := clock t.1 0;
                          Message.toolName := None;
                          Message.toolResult := None |} :: rest
               ∧ (length rest ≤ 2)%nat
               ∧ Forall (λ m, Message.role m = Role.tool
                              ∨ Message.role m = Role.assistant) rest)
          turns blocks
      ∧ (length turns ≤ length (concat blocks) ≤ 3 * length turns)%nat
      ∧ Forall (λ m, Message.role m ≠ Role.system) (concat blocks)
      ∧ isRunning (this (run_turns turns example_world)) = false.
Proof.
  cbn zeta. split; [split; [apply example_world_idle
                           |apply example_world_transcript]|].
  exact (transcript_grows_by_turns _ example_world example_transcript
           example_world_idle example_world_transcript).
Defined.

Lemma runs_leave_snapshots_alone_witness :
  let snap := getMessages example_world in
  let w' := run_turns [(text_turn (Some "Hi!"), "hello")] snap.2 in
  transcript example_world = Some example_transcript
  ∧ read_messages (heap snap.2) snap.1 = Some example_transcript
  ∧ read_messages (heap w') snap.1 = Some example_transcript
  ∧ (∀ l m, messageObjects (heap example_world) !! l = Some m →
            messageObjects (heap w') !! l = Some m)
  ∧ (∀ a xs, a ≠ messages (this example_world) →
             messageArrays (heap example_world) !! a = Some xs →
             messageArrays (heap w') !! a = Some xs)
  ∧ toolArrays (heap w') = toolArrays (heap example_world).
Proof.
  cbn zeta. split; [apply example_world_transcript|].
  exact (runs_leave_snapshots_alone [(text_turn (Some "Hi!"), "hello")]
           example_world example_transcript example_world_transcript).
Defined.

Lemma getMessages_during_run_witness :
  let w1 := (run "hello" 200%Z example_world).2 in
  let snap := getMessages w1 in
  let reply := Fulfilled {| text := Some "Hi!"; toolCall := None |} in
  (isRunning (this example_world) = false
   ∧ transcript example_world = Some example_transcript)
  ∧ read_messages (heap snap.2) snap.1
    = Some (example_transcript ++ [userMsg "hello" 200%Z])
  ∧ (resume_decide reply 201%Z snap.2).1 = (resume_decide reply 201%Z w1).1
  ∧ transcript (resume_decide reply 201%Z snap.2).2
    = transcript (resume_decide reply 201%Z w1).2.
Proof.
  cbn zeta. split; [split; [apply example_world_idle
                           |apply example_world_transcript]|].
  exact (getMessages_during_run example_world example_transcript "hello" 200%Z
           _ 201%Z example_world_idle example_world_transcript).
Defined.

Lemma executors_are_independent_witness :
  let a := messages (this example_world) in
  let w := new_AgentExecutor example_agent 500%Z (heap example_world) in
  let turns := [(text_turn (Some "Hi!"), "hello")] in
  read_messages (heap example_world) a = Some example_transcript
  ∧ messages (this w) ≠ a
  ∧ read_messages (heap w) a = Some example_transcript
  ∧ read_messages (heap (run_turns turns w)) a = Some example_transcript
  ∧ toolArrays (heap (run_turns turns w)) = toolArrays (heap example_world).
Proof.
  cbn zeta. split; [apply example_world_transcript|].
  exact (executors_are_independent example_agent 500%Z (heap example_world)
           (messages (this example_world)) example_transcript
           [(text_turn (Some "Hi!"), "hello")] example_world_transcript).
Defined.

Lemma number_bounds_edges_witness :
  let tool mn mx :=
    {| Tool.name := "randomNumber"; Tool.description := "";
       Tool.parameters :=
         [("max", NumberParam "Maximum value (inclusive)" (Some false)
                    (Some 100%float) mn mx)] |} in
  let ok := {| valid := true; error := None |} in
  let check mn mx x := validateParameters (tool mn mx) {[ "max" := VNumber x ]} in
  (PrimFloat.leb 0%float 1000%float = true
   ∧ PrimFloat.is_nan 0%float = false
   ∧ PrimFloat.is_nan PrimFloat.nan = true
   ∧ PrimFloat.ltb (-5)%float 0%float = true
   ∧ PrimFloat.ltb 1000%float 1001%float = true
   ∧ PrimFloat.ltb 5%float 10%float = true)
  ∧ check (Some 0%float) (Some 1000%float) 7%float = ok
  ∧ check (Some 0%float) (Some 1000%float) 0%float = ok
  ∧ check (Some 0%float) (Some 1000%float) 1000%float = ok
  ∧ check (Some 0%float) (Some 1000%float) PrimFloat.nan = ok
  ∧ check (Some 0%float) (Some 1000%float) (-5)%float
    = {| valid := false; error := Some "Parameter max must be >= 0" |}
  ∧ check (Some 0%float) (Some 1000%float) 1001%float
    = {| valid := false; error := Some "Parameter max must be <= 1000" |}
  ∧ valid (check (Some 10%float) (Some 5%float) 7%float) = false.
Proof.
  cbn zeta.
  assert (∀ lo x, PrimFloat.leb lo x = true →
            ∀ m, Some lo = Some m → PrimFloat.leb m x = true) as Hmin
    by (by intros lo x Hle m [= <-]).
  assert (∀ hi x, PrimFloat.leb x hi = true →
            ∀ M, Some hi = Some M → PrimFloat.leb x M = true) as Hmax
    by (by intros hi x Hle M [= <-]).
  assert (∀ lo x, PrimFloat.ltb x lo = false →
            ∀ m, Some lo = Some m → PrimFloat.ltb x m = false) as Hnot
    by (by intros lo x Hlt m [= <-]).
  pose proof (number_bounds_edges "randomNumber" "" "max"
                "Maximum value (inclusive)" (Some false) (Some 100%float)
                (Some 0%float) (Some 1000%float)) as Hedges.
  pose proof (number_bounds_edges "randomNumber" "" "max"
                "Maximum value (inclusive)" (Some false) (Some 100%float)
                (Some 10%float) (Some 5%float) 7%float)
    as (_ & _ & _ & _ & _ & _ & Hempty).
  cbn zeta in Hedges, Hempty.
  split; [repeat split|].
  split; [|split; [|split; [|split; [|split; [|split]]]]].
  - exact (proj1 (Hedges 7%float)
             (Hmin 0%float 7%float eq_refl) (Hmax 1000%float 7%float eq_refl)).
  - exact (proj1 (proj2 (Hedges 0%float)) eq_refl eq_refl
             (Hmax 1000%float 0%float eq_refl)).
  - exact (proj1 (proj2 (proj2 (Hedges 1000%float))) eq_refl eq_refl
             (Hmin 0%float 1000%float eq_refl)).
  - exact (proj1 (proj2 (proj2 (proj2 (Hedges PrimFloat.nan)))) eq_refl).
  - exact (proj1 (proj2 (proj2 (proj2 (proj2 (Hedges (-5)%float)))))
             0%float eq_refl eq_refl).
  - exact (proj1 (proj2 (proj2 (proj2 (proj2 (proj2 (Hedges 1001%float))))))
             1000%float eq_refl eq_refl (Hnot 0%float 1001%float eq_refl)).
  - exact (Hempty 10%float 5%float eq_refl eq_refl eq_refl eq_refl).
Defined.

Lemma validateParameters_empty_bag_witness :
  let display :=
    {| Tool.name := "show"; Tool.description := "";
       Tool.parameters := [("constructor", StringParam "" None None)] |} in
  let passes (e : string * ToolParameter) :=
    isRequiredParam e.2 = false ∧ Object_prototype e.1 = None in
  (Forall passes (Tool.parameters exampleTools.randomNumberTool)
   ∧ validateParameters exampleTools.randomNumberTool ∅
     = {| valid := true; error := None |})
  ∧ (isRequiredParam
       (StringParam "The operation to perform: add, subtract, multiply, divide"
          (Some true) None) = true
     ∧ Object_prototype "operation" = None
     ∧ validateParameters exampleTools.calculatorTool ∅
       = {| valid := false;
            error := Some "Missing required parameter: operation" |})
  ∧ ("constructor" ∈ Object_prototype_functions
     ∧ validateParameters display ∅
       = {| valid := false;
            error := Some "Parameter constructor must be a string" |}).
Proof.
  cbn zeta.
  assert (Forall (λ e : string * ToolParameter,
                    isRequiredParam e.2 = false ∧ Object_prototype e.1 = None)
            (Tool.parameters exampleTools.randomNumberTool)) as Hnone
    by (repeat constructor).
  assert (Object_entries (Tool.parameters exampleTools.calculatorTool)
          = [] ++ ("operation",
                   StringParam
                     "The operation to perform: add, subtract, multiply, divide"
                     (Some true) None)
               :: [("a", NumberParam "First number" (Some true) None None None);
                   ("b", NumberParam "Second number" (Some true) None None None)])
    as Hcalculator by (vm_compute; reflexivity).
  split; [|split].
  - split; [exact Hnone|].
    exact (proj1 (proj1 (validateParameters_empty_bag
                           exampleTools.randomNumberTool)) Hnone).
  - split; [reflexivity|]. split; [reflexivity|].
    exact (proj1 (proj2 (validateParameters_empty_bag
                           exampleTools.calculatorTool)
                    _ _ _ _ Hcalculator (Forall_nil_2 _)) eq_refl eq_refl).
  - assert ("constructor" ∈ Object_prototype_functions) as Hin
      by apply list_elem_of_here.
    split; [exact Hin|].
    exact (proj2 (proj2 (validateParameters_empty_bag
                           {| Tool.name := "show"; Tool.description := "";
                              Tool.parameters :=
                                [("constructor", StringParam "" None None)] |})
                    [] "constructor" (StringParam "" None None) [] eq_refl
                    (Forall_nil_2 _))
             (or_introl Hin)).
Defined.

Lemma validated_parameters_are_typed_witness :
  let params := ToolCall.parameters
                  (calculator_call "add" (VNumber 1%float) (VNumber 2%float)) in
  let a := NumberParam "First number" (Some true) None None None in
  (valid (validateParameters exampleTools.calculatorTool params) = true
   ∧ ("a", a) ∈ Tool.parameters exampleTools.calculatorTool
   ∧ isRequiredParam a = true)
  ∧ (∃ v, params !! "a" = Some v)
  ∧ (∀ v, params !! "a" = Some v →
       typeof v = Param.type a
       ∧ ∀ x, v = VNumber x →
           (∀ mn, Param.min a = Some mn → PrimFloat.ltb x mn = false)
           ∧ (∀ mx, Param.max a = Some mx → PrimFloat.ltb mx x = false)).
Proof.
  cbn zeta.
  assert (valid (validateParameters exampleTools.calculatorTool
                   (ToolCall.parameters
                      (calculator_call "add" (VNumber 1%float) (VNumber 2%float))))
          = true) as Hv by (vm_compute; reflexivity).
  assert (("a", NumberParam "First number" (Some true) None None None)
          ∈ Tool.parameters exampleTools.calculatorTool) as Hin
    by (cbn; apply list_elem_of_further, list_elem_of_here).
  split; [split; [exact Hv|split; [exact Hin|reflexivity]]|].
  destruct (validated_parameters_are_typed exampleTools.calculatorTool _ "a" _
              Hv Hin) as [Hreq Hty].
  split; [exact (Hreq eq_refl)|exact Hty].
Defined.



Lemma calculator_execute_outcomes_witness :
  (toLowerCase "Divide" = "divide" ∧ PrimFloat.eqb (-0)%float 0%float = true)
  ∧ calculator_execute "Divide" 1%float (-0)%float
    = Rejected (ErrorObject "Cannot divide by zero")
  ∧ calculator_execute "Power" 2%float 3%float
    = Rejected (ErrorObject "Unknown operation: Power")
  ∧ (∃ result, calculator_execute "ADD" 2%float 3%float = Fulfilled result)
  ∧ (∃ operation a b,
       calculator_arguments
         (ToolCall.parameters
            (calculator_call "add" (VNumber 2%float) (VNumber 3%float)))
       = Some (operation, a, b)).
Proof.
  assert (∀ name, name ≠ "power" → toLowerCase "Power" ≠ name) as Hpower
    by (intros name Hne; vm_compute; congruence).
  assert (valid (validateParameters exampleTools.calculatorTool
                   (ToolCall.parameters
                      (calculator_call "add" (VNumber 2%float) (VNumber 3%float))))
          = true) as Hv by (vm_compute; reflexivity).
  split; [split; reflexivity|]. split; [|split; [|split]].
  - exact (proj1 (proj2 (calculator_execute_outcomes "Divide" 1%float
                           (-0)%float)) eq_refl eq_refl).
  - apply (proj1 (proj2 (proj2 (calculator_execute_outcomes "Power" 2%float
                                  3%float))));
      apply Hpower; discriminate.
  - exact (proj1 (proj2 (proj2 (proj2 (calculator_execute_outcomes "ADD"
                                         2%float 3%float))))
             (or_introl eq_refl)).
  - exact (proj2 (proj2 (proj2 (proj2 (calculator_execute_outcomes "add"
                                         2%float 3%float)))) _ Hv).
Defined.

Lemma convertTemperature_execute_outcomes_witness :
  convertTemperature_execute 5%float "Furlong" "furlong"
  = Fulfilled (number_toString 5%float +:+ "°" +:+ "F")
  ∧ convertTemperature_execute 5%float "Furlong" "celsius"
    = Rejected (ErrorObject "Unknown unit: Furlong")
  ∧ convertTemperature_execute 5%float "celsius" "Rankine"
    = Rejected (ErrorObject "Unknown unit: Rankine")
  ∧ ∃ result,
      convertTemperature_execute 5%float "Celsius" "KELVIN" = Fulfilled result.
Proof.
  assert (∀ name, name ≠ "furlong" → toLowerCase "Furlong" ≠ name) as Hfurlong
    by (intros name Hne; vm_compute; congruence).
  assert (∀ name, name ≠ "rankine" → toLowerCase "Rankine" ≠ name) as Hrankine
    by (intros name Hne; vm_compute; congruence).
  assert (toLowerCase "celsius" ≠ toLowerCase "Rankine") as Hcr
    by (vm_compute; discriminate).
  assert (toLowerCase "Celsius" ≠ toLowerCase "KELVIN") as Hck
    by (vm_compute; discriminate).
  split; [|split; [|split]].
  - exact (proj1 (convertTemperature_execute_outcomes 5%float "Furlong"
                    "furlong") eq_refl).
  - apply (proj1 (proj2 (convertTemperature_execute_outcomes 5%float "Furlong"
                           "celsius"))).
    + apply Hfurlong. discriminate.
    + intros [Hu|[Hu|Hu]]; revert Hu; apply Hfurlong; discriminate.
  - apply (proj1 (proj2 (proj2 (convertTemperature_execute_outcomes 5%float
                                  "celsius" "Rankine")))).
    + exact Hcr.
    + by left.
    + intros [Hu|[Hu|Hu]]; revert Hu; apply Hrankine; discriminate.
  - exact (proj2 (proj2 (proj2 (convertTemperature_execute_outcomes 5%float
                                  "Celsius" "KELVIN")))
             Hck (or_introl eq_refl) (or_intror (or_intror eq_refl))).
Defined.
